(** * The repository collector of [extraction/github_filtered_exporter.py]

    A shallow embedding of [fetch_repositories]: the sliding star window,
    the paging loop with its [try]/[except], the row written for each
    item, and the events the function produces (requests, pauses, console
    messages, rows handed to the csv writer). *)

From Stdlib Require Import ZArith Lia.
From stdpp Require Import base option list strings gmap pretty.

Local Open Scope Z_scope.

(** ** JSON values of the search response *)

(** The values a field of an item can hold.  [JNull] is Python's [None]. *)
Inductive Scalar : Type :=
| JNull
| JBool (b : bool)
| JInt (n : Z)
| JStr (s : string).

(** A field that may also hold an object, as [license] does. *)
Inductive Json : Type :=
| JVal (v : Scalar)
| JObj (d : gmap string Scalar).

(** One element of [items].  A field is [None] when the key is absent from
    the dict, so that [repo.get(k)] is [default JNull] of it. *)
Record Repo : Type := mkRepo {
  name : option Scalar;
  full_name : option Scalar;
  html_url : option Scalar;
  description : option Scalar;
  stargazers_count : option Scalar;
  forks_count : option Scalar;
  open_issues_count : option Scalar;
  created_at : option Scalar;
  updated_at : option Scalar;
  license : option Json
}.

(** ** Python primitives used by the row *)

(** [d.get(k)]: the value, or [None]. *)
Definition get (f : option Scalar) : Scalar := default JNull f.

(** [str(v)]. *)
Definition py_str (v : Scalar) : string :=
  match v with
  | JNull => "None"
  | JBool true => "True"
  | JBool false => "False"
  | JInt n => pretty n
  | JStr s => s
  end.

(** The line feed, ["\n"]. *)
Definition LF : Ascii.ascii := Ascii.ascii_of_nat 10.

(** The blank, [" "]. *)
Definition SPACE : Ascii.ascii := Ascii.ascii_of_nat 32.

(** [s.replace("\n", " ")]. *)
Fixpoint replace_newlines (s : string) : string :=
  match s with
  | EmptyString => EmptyString
  | String a rest =>
      String (if Ascii.eqb a LF then SPACE else a) (replace_newlines rest)
  end.

(** Truth value of a scalar, as [or] tests it. *)
Definition truthy (v : Scalar) : bool :=
  match v with
  | JNull => false
  | JBool b => b
  | JInt n => negb (n =? 0)
  | JStr s => negb (String.eqb s EmptyString)
  end.

(** [(repo.get('license') or {}).get('name', 'N/A')].  A falsy value or a
    missing key gives the empty dict; a truthy value that is not a dict has
    no [get], and the attribute error is the [None] here. *)
Definition license_name (l : option Json) : option Scalar :=
  match l with
  | None => Some (default (JStr "N/A") ((∅ : gmap string Scalar) !! "name"))
  | Some (JVal v) =>
      if truthy v then None
      else Some (default (JStr "N/A") ((∅ : gmap string Scalar) !! "name"))
  | Some (JObj d) => Some (default (JStr "N/A") (d !! "name"))
  end.

(** [csv_headers], lines 40-43. *)
Definition csv_headers : list string :=
  [ "name"; "full_name"; "url"; "description"; "stars";
    "forks"; "open_issues"; "created_at"; "updated_at"; "license_name" ].

(** [stars], line 92: whatever the item holds, 0 when the key is absent. *)
Definition stars_of (repo : Repo) : Scalar :=
  default (JInt 0) (stargazers_count repo).

(** The list handed to [writer.writerow], lines 93-104; [None] when
    building it raises. *)
Definition make_row (repo : Repo) : option (list Scalar) :=
  match license_name (license repo) with
  | None => None
  | Some lic =>
      Some [ get (name repo);
             get (full_name repo);
             get (html_url repo);
             JStr (replace_newlines (py_str (default (JStr EmptyString) (description repo))));
             stars_of repo;
             get (forks_count repo);
             get (open_issues_count repo);
             get (created_at repo);
             get (updated_at repo);
             lic ]
  end.

(** ** Numbers as Python compares them *)

(** The values [current_max_stars] can hold: an integer, or a Boolean that
    a star count brought in (line 127). *)
Inductive Num : Type :=
| NInt (n : Z)
| NBool (b : bool).

(** The integer a number counts as: [True] is 1 and [False] is 0. *)
Definition num_value (x : Num) : Z :=
  match x with
  | NInt n => n
  | NBool b => if b then 1 else 0
  end.

(** The number a value is, if it is one: comparing [None] or a text with
    an integer raises a type error. *)
Definition as_num (v : Scalar) : option Num :=
  match v with
  | JInt n => Some (NInt n)
  | JBool b => Some (NBool b)
  | JNull | JStr _ => None
  end.

(** A number as a value. *)
Definition of_num (x : Num) : Scalar :=
  match x with
  | NInt n => JInt n
  | NBool b => JBool b
  end.

(** ** Configuration, requests and responses *)

(** The constants of lines 16-18 and the starting ceiling of line 47. *)
Record Config : Type := mkConfig {
  TARGET_TOTAL : Z;
  RESULTS_PER_PAGE : Z;
  PAGES_PER_QUERY : Z;
  initial_max_stars : Z
}.

Definition default_config : Config :=
  {| TARGET_TOTAL := 10000;
     RESULTS_PER_PAGE := 100;
     PAGES_PER_QUERY := 10;
     initial_max_stars := 500000 |}.

(** The parameters of one search request that vary: the query is
    [language:go stars:<=max_stars], sorted by stars, descending. *)
Record Request : Type := mkRequest {
  max_stars : Num;
  per_page : Z;
  page : Z
}.

(** What [response.json()] and [data.get] give: one of them raises, or the
    answer is a dict whose [items] key may be missing. *)
Inductive Body : Type :=
| Unparsable
| Parsed (items : option (list Repo)).

(** What [requests.get] gives: it raises, or it returns a response. *)
Inductive Response : Type :=
| NoResponse
| Http (status_code : Z) (body : Body).

(** The remote side: the answer to the [n]-th call of [requests.get]. *)
Definition Api : Type := nat -> Request -> Response.

(** The file side: whether [writer.writerow] takes a record row, given the
    requests made and the rows written so far.  It raises, inside the
    [try], when it does not (a text the encoding of the file refuses, a
    write that fails), and then nothing of the row is written.  The file is
    open and its header written before the loop (lines 49-51). *)
Definition Writer : Type := nat -> Z -> list Scalar -> bool.

(** ** What the collector does to the outside *)

Inductive Message : Type :=
| Targeting (target : Z)
| Searching (ceiling : Num)
| RateLimitHit
| HttpError (status : Z)
| Progress (saved target : Z) (lowest : Scalar)
| RequestFailed
| ReachedZero
| Done (saved : Z).

Inductive Event : Type :=
| Get (rq : Request)
| Sleep (seconds : Z)
| Print (m : Message)
| WriteRow (row : list Scalar).

(** The variables of the loops, and the number of requests made. *)
Record Vars : Type := mkVars {
  total_saved : Z;
  last_star_count : Scalar;
  calls : nat
}.

(** How the body of the [for] ends for the loop around it. *)
Inductive Flow : Type := Next | Break.

(** How the [try] block ends. *)
Inductive Signal : Type := Completed | Continued | Broke | Raised.

(** [range(lo, hi)]. *)
Definition range (lo hi : Z) : list Z :=
  map (fun i : nat => lo + Z.of_nat i) (seq 0 (Z.to_nat (hi - lo))).

(** Lines 124-127: the new ceiling; [None] when the comparison of line 124
    raises a type error, which nothing catches. *)
Definition advance_window (last : Scalar) (current_max_stars : Num)
  : option Num :=
  match as_num last with
  | None => None
  | Some l =>
      if num_value current_max_stars <=? num_value l
      then Some (NInt (num_value current_max_stars - 1))
      else Some l
  end.

(** The variables after one more call of [requests.get]. *)
Definition after_call (v : Vars) : Vars :=
  {| total_saved := total_saved v;
     last_star_count := last_star_count v;
     calls := S (calls v) |}.

(** The variables when the [while] is entered (lines 45-47); the last
    star count is not bound yet, and line 58 sets it before it is read. *)
Definition start (cfg : Config) : Vars :=
  {| total_saved := 0;
     last_star_count := JInt (initial_max_stars cfg);
     calls := 0 |}.

Section Collector.

Variable cfg : Config.
Variable api : Api.
Variable csv : Writer.

(** Lines 88-107: the loop over the items of a page.  The boolean tells
    whether building or writing a row raised. *)
Fixpoint write_items (items : list Repo) (v : Vars)
  : bool * Vars * list Event :=
  match items with
  | [] => (false, v, [])
  | repo :: rest =>
      if TARGET_TOTAL cfg <=? total_saved v then (false, v, [])
      else
        match make_row repo with
        | None => (true, v, [])
        | Some row =>
            if csv (calls v) (total_saved v) row then
              let v1 := {| total_saved := total_saved v + 1;
                           last_star_count := stars_of repo;
                           calls := calls v |} in
              let '(raised, v2, evs) := write_items rest v1 in
              (raised, v2, WriteRow row :: evs)
            else (true, v, [])
        end
  end.

(** Lines 62-69. *)
Definition request_for (current_max_stars : Num) (pg : Z) : Request :=
  {| max_stars := current_max_stars;
     per_page := RESULTS_PER_PAGE cfg;
     page := pg |}.

(** Lines 72-115: the [try] block of one page. *)
Definition try_body (current_max_stars : Num) (pg : Z) (v : Vars)
  : Signal * Vars * list Event :=
  let rq := request_for current_max_stars pg in
  let v0 := after_call v in
  match api (calls v) rq with
  | NoResponse => (Raised, v0, [Get rq])
  | Http status body =>
      if status =? 403 then
        (Continued, v0, [Get rq; Print RateLimitHit; Sleep 60])
      else if negb (status =? 200) then
        (Broke, v0, [Get rq; Print (HttpError status)])
      else
        match body with
        | Unparsable => (Raised, v0, [Get rq])
        | Parsed found =>
            match default [] found with
            | [] => (Broke, v0, [Get rq])
            | (_ :: _) as items =>
                let '(raised, v1, evs) := write_items items v0 in
                let progress :=
                  Print (Progress (total_saved v1) (TARGET_TOTAL cfg)
                                  (last_star_count v1)) in
                if raised then (Raised, v1, Get rq :: evs)
                else if TARGET_TOTAL cfg <=? total_saved v1 then
                  (Broke, v1, Get rq :: evs ++ [progress])
                else
                  (Completed, v1, Get rq :: evs ++ [progress; Sleep 2])
            end
        end
  end.

(** Lines 71-119: the [try] with its [except Exception]. *)
Definition page_body (current_max_stars : Num) (pg : Z) (v : Vars)
  : Flow * Vars * list Event :=
  let '(sig, v1, evs) := try_body current_max_stars pg v in
  match sig with
  | Completed | Continued => (Next, v1, evs)
  | Broke => (Break, v1, evs)
  | Raised => (Break, v1, evs ++ [Print RequestFailed])
  end.

(** Line 60: the [for] over the pages still to visit. *)
Fixpoint for_pages (pages : list Z) (current_max_stars : Num) (v : Vars)
  : Vars * list Event :=
  match pages with
  | [] => (v, [])
  | pg :: later =>
      let '(flow, v1, evs) := page_body current_max_stars pg v in
      match flow with
      | Break => (v1, evs)
      | Next =>
          let '(v2, evs') := for_pages later current_max_stars v1 in
          (v2, evs ++ evs')
      end
  end.

(** Lines 56-127: one pass of the [while], up to the new ceiling, which is
    [None] when line 124 raises. *)
Definition outer_pass (current_max_stars : Num) (v : Vars)
  : option Num * Vars * list Event :=
  let v0 := {| total_saved := total_saved v;
               last_star_count := of_num current_max_stars;
               calls := calls v |} in
  let '(v1, evs) :=
    for_pages (range 1 (PAGES_PER_QUERY cfg + 1)) current_max_stars v0 in
  (advance_window (last_star_count v1) current_max_stars, v1,
   Print (Searching current_max_stars) :: evs).

(** Lines 55-131: the [while].  The result is [None] when the fuel runs
    out before the loop ends; the ceiling in it is [None] when the loop
    was left by the type error of line 124. *)
Fixpoint while_loop (fuel : nat) (current_max_stars : Num) (v : Vars)
  : option (option Num * Vars * list Event) :=
  if total_saved v <? TARGET_TOTAL cfg then
    match fuel with
    | O => None
    | S fuel' =>
        let '(next, v1, evs) := outer_pass current_max_stars v in
        match next with
        | None => Some (None, v1, evs)
        | Some next_max =>
            if num_value next_max <=? 0
            then Some (Some next_max, v1, evs ++ [Print ReachedZero])
            else
              match while_loop fuel' next_max v1 with
              | None => None
              | Some (last_max, v2, evs') => Some (last_max, v2, evs ++ evs')
              end
        end
    end
  else Some (Some current_max_stars, v, []).

(** The passes a run starting at a ceiling can need. *)
Definition enough_fuel (current_max_stars : Z) : nat :=
  Z.to_nat (Z.max 1 current_max_stars).

(** Line 133, reached when the loop was left without an error. *)
Definition closing (ending : option Num) (v : Vars) : list Event :=
  match ending with
  | Some _ => [Print (Done (total_saved v))]
  | None => []
  end.

(** Lines 45-133.  The ceiling of the result is [None] when the type
    error of line 124 leaves the function. *)
Definition fetch_repositories_with (fuel : nat)
  : option (option Num * Vars * list Event) :=
  match while_loop fuel (NInt (initial_max_stars cfg)) (start cfg) with
  | None => None
  | Some (ending, v1, evs) =>
      Some (ending, v1,
            WriteRow (map JStr csv_headers)
              :: Print (Targeting (TARGET_TOTAL cfg))
              :: evs ++ closing ending v1)
  end.

Definition fetch_repositories
  : option (option Num * Vars * list Event) :=
  fetch_repositories_with (enough_fuel (initial_max_stars cfg)).

End Collector.

(** ** Reading a trace *)

Definition row_of (e : Event) : option (list Scalar) :=
  match e with WriteRow row => Some row | _ => None end.

(** The ceiling a pass announces, as the integer it counts as. *)
Definition search_of (e : Event) : option Z :=
  match e with Print (Searching c) => Some (num_value c) | _ => None end.

Definition request_of (e : Event) : option Request :=
  match e with Get rq => Some rq | _ => None end.

(** The rows handed to the csv writer, in order. *)
Definition rows_of (evs : list Event) : list (list Scalar) := omap row_of evs.

(** The rows of a whole run after the header row. *)
Definition data_rows (evs : list Event) : list (list Scalar) := tail (rows_of evs).

(** The ceilings of the passes of the [while], one per pass. *)
Definition searched (evs : list Event) : list Z := omap search_of evs.

(** The ceiling the loop was left with, when it was left without error. *)
Definition final_ceiling (ending : option Num) : list Z :=
  match ending with
  | Some c => [num_value c]
  | None => []
  end.

(** The requests sent. *)
Definition requested (evs : list Event) : list Request := omap request_of evs.

(** The star count a row carries, in its fifth cell. *)
Definition star_value (row : list Scalar) : option Scalar := row !! 4%nat.

(** The star count of a row when it is an integer. *)
Definition star_cell (row : list Scalar) : option Z :=
  match row !! 4%nat with
  | Some (JInt n) => Some n
  | _ => None
  end.

(** The star count of a row as the integer it counts as, when it is a
    number. *)
Definition star_number (row : list Scalar) : option Z :=
  match row !! 4%nat with
  | Some value => num_value <$> as_num value
  | None => None
  end.

(** The star counts of the rows written, in order. *)
Definition stars_seen (evs : list Event) : list Scalar :=
  omap star_value (rows_of evs).

(** The star counts of the rows written that are numbers, in order. *)
Definition stars_written (evs : list Event) : list Z :=
  omap star_number (rows_of evs).



(** The star count the pass tracks: that of the last row written, the
    ceiling when no row was written. *)
Definition tracked (c : Num) (evs : list Event) : Scalar :=
  default (of_num c) (last (stars_seen evs)).

(** A list of integers in which each one is at least 1 below the one before. *)
Fixpoint steps_down (l : list Z) : Prop :=
  match l with
  | a :: (b :: _) as rest => b <= a - 1 /\ steps_down rest
  | _ => True
  end.

(** A list of integers that never goes up. *)
Fixpoint descending (l : list Z) : Prop :=
  match l with
  | a :: (b :: _) as rest => b <= a /\ descending rest
  | _ => True
  end.

(** The item is in the [items] of some successful answer of the API. *)
Definition served (api : Api) (repo : Repo) : Prop :=
  exists n rq found,
    api n rq = Http 200 (Parsed (Some found)) /\ repo ∈ found.

(** No line feed in the string. *)
Definition newline_free (s : string) : Prop :=
  ~ In LF (String.list_ascii_of_string s).

(** [text] is [source] with every line feed turned into a blank and every
    other character kept at its place. *)
Definition blanked (source text : string) : Prop :=
  String.length text = String.length source
  /\ forall i : nat,
       String.get i text =
       match String.get i source with
       | Some a => Some (if Ascii.eqb a LF then SPACE else a)
       | None => None
       end.

(** Events that touch neither the file nor the variables. *)
Definition silent (e : Event) : Prop :=
  row_of e = None /\ request_of e = None /\ search_of e = None.

(** What a stretch of the run with events [evs] does to the variables:
    one more saved record per row written, the last star count that of the
    last row written, one more call per request, never past the target,
    and no new pass of the [while] announced. *)
Record Effect (cfg : Config) (v : Vars) (evs : list Event) (v' : Vars)
  : Prop := mkEffect {
  eff_saved :
    total_saved v' = total_saved v + Z.of_nat (length (rows_of evs));
  eff_last :
    last_star_count v' = default (last_star_count v) (last (stars_seen evs));
  eff_calls :
    calls v' = (calls v + length (requested evs))%nat;
  eff_quota :
    total_saved v' <= Z.max (TARGET_TOTAL cfg) (total_saved v);
  eff_quiet :
    searched evs = []
}.

(** Every row written is the row of an item the API served. *)
Definition rows_served (api : Api) (evs : list Event) : Prop :=
  Forall (fun row => exists repo, served api repo /\ make_row repo = Some row)
         (rows_of evs).

(** Every count the collector prints is the count of rows written so
    far, [saved] standing for the rows written before [evs]. *)
Fixpoint audited (saved : Z) (evs : list Event) : Prop :=
  match evs with
  | [] => True
  | WriteRow _ :: rest => audited (saved + 1) rest
  | Print (Progress n _ _) :: rest => n = saved /\ audited saved rest
  | Print (Done n) :: rest => n = saved /\ audited saved rest
  | _ :: rest => audited saved rest
  end.

(** ** Reading one pass *)

Definition next_ceiling (cfg : Config) (api : Api) (csv : Writer) (c : Num)
           (v : Vars) : option Num :=
  (outer_pass cfg api csv c v).1.1.

Definition pass_vars (cfg : Config) (api : Api) (csv : Writer) (c : Num)
           (v : Vars) : Vars :=
  (outer_pass cfg api csv c v).1.2.

Definition pass_events (cfg : Config) (api : Api) (csv : Writer) (c : Num)
           (v : Vars) : list Event :=
  (outer_pass cfg api csv c v).2.

(** ** Scenarios *)

(** A writer that takes every row. *)
Definition always_writes : Writer := fun _ _ _ => true.

(** An item with a name and a star count, or without the star count. *)
Definition item (label : string) (stars : option Z) : Repo :=
  {| name := Some (JStr label); full_name := None; html_url := None;
     description := None; stargazers_count := JInt <$> stars;
     forks_count := None; open_issues_count := None;
     created_at := None; updated_at := None; license := None |}.


(** The first request is turned down with 403; every later one succeeds
    with no items. *)
Definition limited_api : Api :=
  fun n _ =>
    match n with
    | O => Http 403 Unparsable
    | S _ => Http 200 (Parsed (Some []))
    end.

(** The first request is answered with the given star counts, in this
    order; every later one with no items. *)
Definition one_page_api (stars : list (option Z)) : Api :=
  fun n _ =>
    match n with
    | O => Http 200 (Parsed (Some (map (item "repo") stars)))
    | S _ => Http 200 (Parsed (Some []))
    end.


(** A small configuration: five records wanted, starting at 500 stars. *)
Definition small_config : Config :=
  {| TARGET_TOTAL := 5;
     RESULTS_PER_PAGE := 100;
     PAGES_PER_QUERY := 10;
     initial_max_stars := 500 |}.

(** ** What a written row is *)

(** The item has no license: the key is missing, or it holds [null]. *)
Definition has_no_license (repo : Repo) : Prop :=
  license repo = None \/ license repo = Some (JVal JNull).

(** The row is the ten fields of the item in the order of the header, and
    the license cell is the placeholder when the item has no license. *)
Definition row_matches (repo : Repo) (row : list Scalar) : Prop :=
  exists lic,
    row = [ get (name repo); get (full_name repo); get (html_url repo);
            JStr (replace_newlines
                    (py_str (default (JStr EmptyString) (description repo))));
            stars_of repo;
            get (forks_count repo); get (open_issues_count repo);
            get (created_at repo); get (updated_at repo); lic ]
    /\ license_name (license repo) = Some lic
    /\ (has_no_license repo -> lic = JStr "N/A").

(** ** The rest of the module *)

(** The media type of line 26 and line 29. *)
Definition accept_v3 : string := "application/vnd.github.v3+json".

(** Lines 22-31: for a value of [GITHUB_TOKEN] ([None] when the variable
    is not set), whether the warning is printed, and the headers. *)
Definition auth_headers (token : option string) : bool * gmap string string :=
  match token with
  | None => (true, {[ "Accept" := accept_v3 ]})
  | Some t =>
      if String.eqb t EmptyString then (true, {[ "Accept" := accept_v3 ]})
      else (false, {[ "Accept" := accept_v3;
                      "Authorization" := "Bearer " +:+ t ]})
  end.

(** Line 62: the query of a window. *)
Definition query (current_max_stars : Num) : string :=
  "language:go stars:<=" +:+ py_str (of_num current_max_stars).

(** Lines 63-69: the parameters sent with a request. *)
Definition params (rq : Request) : gmap string Scalar :=
  {[ "q" := JStr (query (max_stars rq));
     "sort" := JStr "stars";
     "order" := JStr "desc";
     "per_page" := JInt (per_page rq);
     "page" := JInt (page rq) ]}.

(** ** More ways to read a trace *)

(** Every request is sent while fewer than [target] record rows are
    written, [saved] standing for the rows written before [evs]. *)
Fixpoint asks_below (target saved : Z) (evs : list Event) : Prop :=
  match evs with
  | [] => True
  | WriteRow _ :: rest => asks_below target (saved + 1) rest
  | Get _ :: rest => saved < target /\ asks_below target saved rest
  | _ :: rest => asks_below target saved rest
  end.

(** No request is sent without a pause since the request before;
    [rested] tells whether a request may be sent now. *)
Fixpoint paced (rested : bool) (evs : list Event) : Prop :=
  match evs with
  | [] => True
  | Get _ :: rest => rested = true /\ paced false rest
  | Sleep _ :: rest => paced true rest
  | _ :: rest => paced rested rest
  end.

(** Whether a request may be sent after [evs]. *)
Fixpoint rested_after (rested : bool) (evs : list Event) : bool :=
  match evs with
  | [] => rested
  | Get _ :: rest => rested_after false rest
  | Sleep _ :: rest => rested_after true rest
  | _ :: rest => rested_after rested rest
  end.

(** A request that fits the configuration, for a ceiling of at most [c]. *)
Definition fits (cfg : Config) (c : Z) (rq : Request) : Prop :=
  per_page rq = RESULTS_PER_PAGE cfg
  /\ 1 <= page rq <= PAGES_PER_QUERY cfg
  /\ num_value (max_stars rq) <= c.

(** Every request is turned down with 403. *)
Definition always_limited_api : Api := fun _ _ => Http 403 Unparsable.

(** Three items that all have a row. *)
Definition three_items : list Repo :=
  [item "a" (Some 9); item "b" (Some 8); item "c" (Some 7)].

(** ** Facts about the primitives *)

Lemma replace_newlines_free (s : string) : newline_free (replace_newlines s).
Proof.
  unfold newline_free. induction s as [|a s IH]; simpl.
  - tauto.
  - intros [H|H]; [|tauto].
    destruct (Ascii.eqb a LF) eqn:E.
    + discriminate H.
    + apply Ascii.eqb_neq in E. congruence.
Qed.

Lemma replace_newlines_blanked (s : string) : blanked s (replace_newlines s).
Proof.
  split.
  - induction s as [|a s IH]; simpl; [reflexivity|]. rewrite IH. reflexivity.
  - induction s as [|a s IH]; intros i; simpl.
    + destruct i; reflexivity.
    + destruct i as [|i]; [reflexivity|]. apply IH.
Qed.

Lemma license_name_absent (l : option Json) :
  l = None \/ l = Some (JVal JNull) -> license_name l = Some (JStr "N/A").
Proof. intros [->| ->]; reflexivity. Qed.

Lemma make_row_shape (repo : Repo) (row : list Scalar) :
  make_row repo = Some row ->
  exists lic,
    license_name (license repo) = Some lic /\
    row = [ get (name repo); get (full_name repo); get (html_url repo);
            JStr (replace_newlines
                    (py_str (default (JStr EmptyString) (description repo))));
            stars_of repo;
            get (forks_count repo); get (open_issues_count repo);
            get (created_at repo); get (updated_at repo); lic ].
Proof.
  unfold make_row. destruct (license_name (license repo)) as [lic|]; [|done].
  intros [= <-]. eauto.
Qed.

Lemma make_row_matches (repo : Repo) (row : list Scalar) :
  make_row repo = Some row -> row_matches repo row.
Proof.
  intros (lic & Hlic & ->)%make_row_shape. exists lic.
  split; [reflexivity|]. split; [exact Hlic|].
  intros Hnone. apply license_name_absent in Hnone. congruence.
Qed.

Lemma make_row_star_value (repo : Repo) (row : list Scalar) :
  make_row repo = Some row -> star_value row = Some (stars_of repo).
Proof. intros (lic & _ & ->)%make_row_shape. reflexivity. Qed.

Lemma of_num_as_num (c : Num) : as_num (of_num c) = Some c.
Proof. destruct c; reflexivity. Qed.

Lemma advance_window_below (last : Scalar) (c next : Num) :
  advance_window last c = Some next -> num_value next <= num_value c - 1.
Proof.
  unfold advance_window. destruct (as_num last) as [l|]; [|discriminate].
  destruct (Z.leb_spec (num_value c) (num_value l)); intros [= <-]; simpl; lia.
Qed.

Lemma range_cons (lo hi : Z) :
  lo < hi -> range lo hi = lo :: range (lo + 1) hi.
Proof.
  intros H. unfold range.
  replace (Z.to_nat (hi - lo)) with (S (Z.to_nat (hi - (lo + 1)))) by lia.
  simpl. f_equal; [lia|].
  rewrite <- seq_shift, map_map. apply map_ext. intros i. lia.
Qed.

Lemma range_length (lo hi : Z) : length (range lo hi) = Z.to_nat (hi - lo).
Proof. unfold range. rewrite length_map, length_seq. reflexivity. Qed.

Lemma range_lookup (lo hi : Z) (i : nat) (x : Z) :
  range lo hi !! i = Some x -> x = lo + Z.of_nat i /\ x < hi.
Proof.
  unfold range. intros H.
  change (map ?f ?l) with (f <$> l) in H.
  apply list_lookup_fmap_Some in H as (j & -> & Hj).
  apply lookup_seq in Hj as [-> Hlt]. lia.
Qed.

(** ** Facts about traces *)

Lemma rows_of_app (e1 e2 : list Event) :
  rows_of (e1 ++ e2) = rows_of e1 ++ rows_of e2.
Proof. apply omap_app. Qed.

Lemma searched_app (e1 e2 : list Event) :
  searched (e1 ++ e2) = searched e1 ++ searched e2.
Proof. apply omap_app. Qed.

Lemma requested_app (e1 e2 : list Event) :
  requested (e1 ++ e2) = requested e1 ++ requested e2.
Proof. apply omap_app. Qed.

Lemma stars_seen_app (e1 e2 : list Event) :
  stars_seen (e1 ++ e2) = stars_seen e1 ++ stars_seen e2.
Proof. unfold stars_seen. rewrite rows_of_app. apply omap_app. Qed.

Lemma stars_written_app (e1 e2 : list Event) :
  stars_written (e1 ++ e2) = stars_written e1 ++ stars_written e2.
Proof. unfold stars_written. rewrite rows_of_app. apply omap_app. Qed.

Lemma rows_of_write (row : list Scalar) (evs : list Event) :
  rows_of (WriteRow row :: evs) = row :: rows_of evs.
Proof. reflexivity. Qed.

Lemma stars_seen_write (row : list Scalar) (s : Scalar) (evs : list Event) :
  star_value row = Some s ->
  stars_seen (WriteRow row :: evs) = s :: stars_seen evs.
Proof.
  intros H. unfold stars_seen. rewrite rows_of_write. simpl. rewrite H.
  reflexivity.
Qed.

Lemma requested_write (row : list Scalar) (evs : list Event) :
  requested (WriteRow row :: evs) = requested evs.
Proof. reflexivity. Qed.

Lemma searched_write (row : list Scalar) (evs : list Event) :
  searched (WriteRow row :: evs) = searched evs.
Proof. reflexivity. Qed.





Lemma audited_app (saved : Z) (e1 e2 : list Event) :
  audited saved (e1 ++ e2) <->
  audited saved e1 /\ audited (saved + Z.of_nat (length (rows_of e1))) e2.
Proof.
  revert saved. induction e1 as [|e e1 IH]; intros saved.
  - simpl. rewrite Z.add_0_r. tauto.
  - destruct e as [rq|secs|m|row].
    + apply IH.
    + apply IH.
    + change (rows_of (Print m :: e1)) with (rows_of e1).
      destruct m; simpl; rewrite ?IH; tauto.
    + rewrite rows_of_write, length_cons. simpl. rewrite IH.
      replace (saved + 1 + Z.of_nat (length (rows_of e1)))
        with (saved + Z.of_nat (S (length (rows_of e1)))) by lia.
      tauto.
Qed.

Lemma audited_progress (saved n t : Z) (l : Scalar) (pre post : list Event) :
  audited saved (pre ++ Print (Progress n t l) :: post) ->
  n = saved + Z.of_nat (length (rows_of pre)).
Proof. rewrite audited_app. simpl. tauto. Qed.

Lemma audited_done (saved n : Z) (pre post : list Event) :
  audited saved (pre ++ Print (Done n) :: post) ->
  n = saved + Z.of_nat (length (rows_of pre)).
Proof. rewrite audited_app. simpl. tauto. Qed.

Lemma steps_down_descending (l : list Z) : steps_down l -> descending l.
Proof.
  induction l as [|a [|b l] IH]; simpl; auto.
  intros [H1 H2]. split; [lia|]. apply IH, H2.
Qed.

Lemma last_omap_total {A B : Type} (f : A -> option B) (l : list A) :
  Forall (fun x => is_Some (f x)) l -> last (omap f l) = last l ≫= f.
Proof.
  destruct l as [|x l _] using rev_ind; intros Hall; [reflexivity|].
  apply Forall_app in Hall as [_ Hx]. apply Forall_singleton in Hx as [y Hy].
  rewrite omap_app, last_snoc. simpl. rewrite Hy. simpl. apply last_snoc.
Qed.

(** ** The effect of each loop *)

Section Facts.

Variable cfg : Config.
Variable api : Api.
Variable csv : Writer.

Lemma Effect_nil (v : Vars) : Effect cfg v [] v.
Proof. split; simpl; auto; lia. Qed.

Lemma Effect_app (v v1 v2 : Vars) (e1 e2 : list Event) :
  Effect cfg v e1 v1 -> Effect cfg v1 e2 v2 -> Effect cfg v (e1 ++ e2) v2.
Proof.
  intros [S1 L1 C1 Q1 N1] [S2 L2 C2 Q2 N2]. split.
  - rewrite rows_of_app, length_app. lia.
  - rewrite stars_seen_app, last_app, L2, L1.
    destruct (last (stars_seen e2)); reflexivity.
  - rewrite requested_app, length_app. lia.
  - lia.
  - rewrite searched_app, N1, N2. reflexivity.
Qed.

Lemma Effect_silent (v v' : Vars) (evs quiet : list Event) :
  Forall silent quiet -> Effect cfg v evs v' -> Effect cfg v (evs ++ quiet) v'.
Proof.
  intros Hq H. apply (Effect_app v v' v'); [exact H|]. clear H.
  induction Hq as [|e quiet (Hr & Hg & Hs) _ IH]; [apply Effect_nil|].
  destruct IH as [S1 L1 C1 Q1 N1].
  split; unfold stars_seen, rows_of, requested, searched in *; simpl;
    rewrite ?Hr, ?Hg, ?Hs; auto.
Qed.

Lemma write_items_effect (items : list Repo) (v v' : Vars)
      (raised : bool) (evs : list Event) :
  write_items cfg csv items v = (raised, v', evs) ->
  Effect cfg v evs v'
  /\ requested evs = []
  /\ Forall (fun row => exists repo, repo ∈ items /\ make_row repo = Some row)
            (rows_of evs).
Proof.
  revert v v' raised evs.
  induction items as [|repo rest IH]; intros v v' raised evs; simpl.
  - intros [= <- <- <-]. split; [apply Effect_nil|]. split; [done|constructor].
  - destruct (Z.leb_spec (TARGET_TOTAL cfg) (total_saved v)) as [Hfull|Hroom].
    { intros [= <- <- <-]. split; [apply Effect_nil|]. split; [done|constructor]. }
    destruct (make_row repo) as [row|] eqn:Hrow.
    2:{ intros [= <- <- <-]. split; [apply Effect_nil|]. split; [done|constructor]. }
    destruct (csv (calls v) (total_saved v) row).
    2:{ intros [= <- <- <-]. split; [apply Effect_nil|]. split; [done|constructor]. }
    destruct (write_items cfg csv rest _) as [[raised1 v2] evs1] eqn:Hrest.
    intros [= <- <- <-].
    destruct (IH _ _ _ _ Hrest) as ([S1 L1 C1 Q1 N1] & Hreq & Hrows).
    simpl in S1, L1, C1, Q1.
    split; [split|split].
    + rewrite rows_of_write, length_cons. lia.
    + rewrite (stars_seen_write _ _ _ (make_row_star_value _ _ Hrow)).
      rewrite last_cons, L1. destruct (last _); reflexivity.
    + rewrite requested_write. exact C1.
    + lia.
    + rewrite searched_write. exact N1.
    + rewrite requested_write. exact Hreq.
    + rewrite rows_of_write. constructor.
      * exists repo. split; [left|exact Hrow].
      * eapply Forall_impl; [exact Hrows|].
        intros r (repo' & Hin & Hmk). exists repo'. split; [right; exact Hin|exact Hmk].
Qed.

Lemma Effect_get (v : Vars) (rq : Request) :
  Effect cfg v [Get rq] (after_call v).
Proof. split; simpl; auto; lia. Qed.

Lemma rows_served_app (e1 e2 : list Event) :
  rows_served api (e1 ++ e2) <-> rows_served api e1 /\ rows_served api e2.
Proof. unfold rows_served. rewrite rows_of_app. apply Forall_app. Qed.

Lemma rows_served_silent (evs : list Event) :
  Forall (fun e => row_of e = None) evs -> rows_served api evs.
Proof.
  unfold rows_served. induction 1 as [|e evs He _ IH]; [constructor|].
  unfold rows_of. simpl. rewrite He. exact IH.
Qed.

Lemma try_body_effect (c : Num) (pg : Z) (v v1 : Vars) (sig : Signal)
      (evs : list Event) :
  try_body cfg api csv c pg v = (sig, v1, evs) ->
  Effect cfg v evs v1 /\ rows_served api evs.
Proof.
  unfold try_body.
  pose proof (Effect_get v (request_for cfg c pg)) as Hget.
  set (v0 := after_call v) in *.
  set (rq := request_for cfg c pg) in *.
  destruct (api (calls v) rq) as [|status body] eqn:Hapi.
  { intros [= <- <- <-]. split; [exact Hget|].
    apply rows_served_silent. repeat constructor. }
  destruct (Z.eqb_spec status 403) as [->|Hne403].
  { intros [= <- <- <-]. split.
    - apply (Effect_silent v v0 [Get rq] [_; _]); [|exact Hget].
      repeat constructor.
    - apply rows_served_silent. repeat constructor. }
  destruct (Z.eqb_spec status 200) as [->|Hne200]; cbn [negb]; cbv iota.
  2:{ intros [= <- <- <-]. split.
      - apply (Effect_silent v v0 [Get rq] [_]); [|exact Hget].
        repeat constructor.
      - apply rows_served_silent. repeat constructor. }
  destruct body as [|found].
  { intros [= <- <- <-]. split; [exact Hget|].
    apply rows_served_silent. repeat constructor. }
  destruct (default [] found) as [|repo rest] eqn:Hfound.
  { intros [= <- <- <-]. split; [exact Hget|].
    apply rows_served_silent. repeat constructor. }
  destruct (write_items cfg csv (repo :: rest) v0) as [[raised v2] evs2] eqn:Hw.
  destruct (write_items_effect _ _ _ _ _ Hw) as (Heff & _ & Hrows).
  assert (Effect cfg v (Get rq :: evs2) v2) as Hpage.
  { apply (Effect_app v v0 v2 [Get rq] evs2); assumption. }
  assert (rows_served api (Get rq :: evs2)) as Hserved.
  { unfold rows_served. change (rows_of (Get rq :: evs2)) with (rows_of evs2).
    eapply Forall_impl; [exact Hrows|].
    intros row (r & Hin & Hmk). exists r. split; [|exact Hmk].
    destruct found as [found|]; [|done]. simpl in Hfound. subst found.
    exists (calls v), rq, (repo :: rest). split; [exact Hapi|exact Hin]. }
  destruct raised; cbv iota.
  { intros [= <- <- <-]. split; assumption. }
  destruct (TARGET_TOTAL cfg <=? total_saved v2); cbv iota.
  - intros [= <- <- <-]. split.
    + apply (Effect_silent v v2 (Get rq :: evs2) [_]); [|exact Hpage].
      repeat constructor.
    + apply (rows_served_app (Get rq :: evs2) [_]). split; [exact Hserved|].
      apply rows_served_silent. repeat constructor.
  - intros [= <- <- <-]. split.
    + apply (Effect_silent v v2 (Get rq :: evs2) [_; _]); [|exact Hpage].
      repeat constructor.
    + apply (rows_served_app (Get rq :: evs2) [_; _]). split; [exact Hserved|].
      apply rows_served_silent. repeat constructor.
Qed.

Lemma page_body_effect (c : Num) (pg : Z) (v v1 : Vars) (flow : Flow)
      (evs : list Event) :
  page_body cfg api csv c pg v = (flow, v1, evs) ->
  Effect cfg v evs v1 /\ rows_served api evs.
Proof.
  unfold page_body.
  destruct (try_body cfg api csv c pg v) as [[sig v2] evs2] eqn:Htry.
  destruct (try_body_effect _ _ _ _ _ _ Htry) as [Heff Hserved].
  destruct sig; intros [= <- <- <-]; try (split; assumption).
  split.
  - apply Effect_silent; [repeat constructor|exact Heff].
  - apply rows_served_app. split; [exact Hserved|].
    apply rows_served_silent. repeat constructor.
Qed.

Lemma for_pages_effect (pages : list Z) (c : Num) (v v1 : Vars)
      (evs : list Event) :
  for_pages cfg api csv pages c v = (v1, evs) ->
  Effect cfg v evs v1 /\ rows_served api evs.
Proof.
  revert v v1 evs. induction pages as [|pg later IH]; intros v v1 evs; simpl.
  - intros [= <- <-]. split; [apply Effect_nil|constructor].
  - destruct (page_body cfg api csv c pg v) as [[flow v2] evs2] eqn:Hpage.
    destruct (page_body_effect _ _ _ _ _ _ Hpage) as [Heff Hserved].
    destruct flow.
    + destruct (for_pages cfg api csv later c v2) as [v3 evs3] eqn:Hlater.
      intros [= <- <-].
      destruct (IH _ _ _ Hlater) as [Heff3 Hserved3]. split.
      * eapply Effect_app; eassumption.
      * apply rows_served_app. split; assumption.
    + intros [= <- <-]. split; assumption.
Qed.

Lemma write_items_audited (items : list Repo) (v v' : Vars)
      (raised : bool) (evs : list Event) :
  write_items cfg csv items v = (raised, v', evs) -> audited (total_saved v) evs.
Proof.
  revert v v' raised evs.
  induction items as [|repo rest IH]; intros v v' raised evs; simpl.
  - intros [= <- <- <-]. exact I.
  - destruct (TARGET_TOTAL cfg <=? total_saved v); [intros [= <- <- <-]; exact I|].
    destruct (make_row repo) as [row|]; [|intros [= <- <- <-]; exact I].
    destruct (csv (calls v) (total_saved v) row);
      [|intros [= <- <- <-]; exact I].
    destruct (write_items cfg csv rest _) as [[raised1 v2] evs1] eqn:Hrest.
    intros [= <- <- <-]. apply (IH _ _ _ _ Hrest).
Qed.

Lemma try_body_audited (c : Num) (pg : Z) (v v1 : Vars) (sig : Signal)
      (evs : list Event) :
  try_body cfg api csv c pg v = (sig, v1, evs) -> audited (total_saved v) evs.
Proof.
  unfold try_body.
  set (v0 := after_call v) in *.
  set (rq := request_for cfg c pg) in *.
  destruct (api (calls v) rq) as [|status body]; [intros [= <- <- <-]; exact I|].
  destruct (status =? 403); [intros [= <- <- <-]; exact I|].
  destruct (negb (status =? 200)); [intros [= <- <- <-]; exact I|].
  destruct body as [|found]; [intros [= <- <- <-]; exact I|].
  destruct (default [] found) as [|repo rest]; [intros [= <- <- <-]; exact I|].
  destruct (write_items cfg csv (repo :: rest) v0) as [[raised v2] evs2] eqn:Hw.
  pose proof (write_items_audited _ _ _ _ _ Hw) as Haud.
  destruct (write_items_effect _ _ _ _ _ Hw) as ([S1 _ _ _ _] & _ & _).
  change (total_saved v0) with (total_saved v) in *.
  destruct raised; cbv iota; [intros [= <- <- <-]; exact Haud|].
  destruct (TARGET_TOTAL cfg <=? total_saved v2); cbv iota;
    intros [= <- <- <-];
    apply (audited_app _ (Get rq :: evs2)); (split; [exact Haud|]);
    change (rows_of (Get rq :: evs2)) with (rows_of evs2);
    rewrite <- S1; simpl; auto.
Qed.

Lemma page_body_audited (c : Num) (pg : Z) (v v1 : Vars) (flow : Flow)
      (evs : list Event) :
  page_body cfg api csv c pg v = (flow, v1, evs) -> audited (total_saved v) evs.
Proof.
  unfold page_body.
  destruct (try_body cfg api csv c pg v) as [[sig v2] evs2] eqn:Htry.
  pose proof (try_body_audited _ _ _ _ _ _ Htry) as Haud.
  destruct sig; intros [= <- <- <-]; try exact Haud.
  apply audited_app. split; [exact Haud|exact I].
Qed.

Lemma for_pages_audited (pages : list Z) (c : Num) (v v1 : Vars)
      (evs : list Event) :
  for_pages cfg api csv pages c v = (v1, evs) -> audited (total_saved v) evs.
Proof.
  revert v v1 evs. induction pages as [|pg later IH]; intros v v1 evs; simpl.
  - intros [= <- <-]. exact I.
  - destruct (page_body cfg api csv c pg v) as [[flow v2] evs2] eqn:Hpage.
    pose proof (page_body_audited _ _ _ _ _ _ Hpage) as Haud.
    destruct (page_body_effect _ _ _ _ _ _ Hpage) as [[S1 _ _ _ _] _].
    destruct flow; [|intros [= <- <-]; exact Haud].
    destruct (for_pages cfg api csv later c v2) as [v3 evs3] eqn:Hlater.
    intros [= <- <-]. apply audited_app. split; [exact Haud|].
    rewrite <- S1. apply (IH _ _ _ Hlater).
Qed.

(** One pass of the [while]. *)
Lemma outer_pass_effect (c : Num) (v v1 : Vars) (next : option Num)
      (evs : list Event) :
  outer_pass cfg api csv c v = (next, v1, evs) ->
  total_saved v1 = total_saved v + Z.of_nat (length (rows_of evs))
  /\ total_saved v1 <= Z.max (TARGET_TOTAL cfg) (total_saved v)
  /\ last_star_count v1 = tracked c evs
  /\ next = advance_window (last_star_count v1) c
  /\ searched evs = [num_value c]
  /\ rows_served api evs
  /\ audited (total_saved v) evs.
Proof.
  unfold outer_pass.
  destruct (for_pages cfg api csv _ c _) as [v2 evs2] eqn:Hpages.
  intros [= <- <- <-].
  destruct (for_pages_effect _ _ _ _ _ Hpages) as [[S1 L1 C1 Q1 N1] Hserved].
  pose proof (for_pages_audited _ _ _ _ _ Hpages) as Haud.
  simpl in S1, L1, Q1, Haud.
  repeat split; try assumption.
  change (searched (Print (Searching c) :: evs2))
    with (num_value c :: searched evs2).
  rewrite N1. reflexivity.
Qed.

(** Every row an item gave carries a star count. *)
Lemma rows_served_star_values (evs : list Event) :
  rows_served api evs ->
  Forall (fun row => is_Some (star_value row)) (rows_of evs).
Proof.
  intros Hserved. eapply Forall_impl; [exact Hserved|].
  intros row (repo & _ & Hrow).
  rewrite (make_row_star_value _ _ Hrow). eauto.
Qed.

(** A pass is left by the type error only when the last row it wrote
    carries a star count that is not a number. *)
Lemma outer_pass_raises (c : Num) (v v1 : Vars) (evs : list Event) :
  outer_pass cfg api csv c v = (None, v1, evs) ->
  exists row s,
    last (rows_of evs) = Some row
    /\ star_value row = Some s /\ as_num s = None.
Proof.
  intros Hpass.
  destruct (outer_pass_effect _ _ _ _ _ Hpass)
    as (_ & _ & Hlast & Hnext & _ & Hserved & _).
  rewrite Hlast in Hnext. unfold advance_window, tracked in Hnext.
  unfold stars_seen in Hnext.
  rewrite (last_omap_total _ _ (rows_served_star_values _ Hserved)) in Hnext.
  destruct (last (rows_of evs)) as [row|]; simpl in Hnext.
  - destruct (star_value row) as [s|] eqn:Hs; simpl in Hnext.
    + exists row, s. split; [reflexivity|]. split; [exact Hs|].
      destruct (as_num s); [|reflexivity].
      destruct (_ <=? _); discriminate.
    + rewrite of_num_as_num in Hnext. destruct (_ <=? _); discriminate.
  - rewrite of_num_as_num in Hnext. destruct (_ <=? _); discriminate.
Qed.

Lemma enough_fuel_pos (c : Z) : (1 <= enough_fuel c)%nat.
Proof. unfold enough_fuel. lia. Qed.

Lemma enough_fuel_next (c next : Z) :
  next <= c - 1 -> 0 < next -> (S (enough_fuel next) <= enough_fuel c)%nat.
Proof. unfold enough_fuel. lia. Qed.

(** The whole [while], when it ends. *)
Lemma while_loop_effect (fuel : nat) (c : Num) (v v' : Vars)
      (ending : option Num) (evs : list Event) :
  while_loop cfg api csv fuel c v = Some (ending, v', evs) ->
  total_saved v' = total_saved v + Z.of_nat (length (rows_of evs))
  /\ total_saved v' <= Z.max (TARGET_TOTAL cfg) (total_saved v)
  /\ rows_served api evs
  /\ audited (total_saved v) evs
  /\ (exists lower, searched evs ++ final_ceiling ending = num_value c :: lower)
  /\ steps_down (searched evs ++ final_ceiling ending)
  /\ (length (searched evs) <= enough_fuel (num_value c))%nat.
Proof.
  revert c v v' ending evs.
  induction fuel as [|fuel IH]; intros c v v' ending evs; simpl;
    destruct (Z.ltb_spec (total_saved v) (TARGET_TOTAL cfg)) as [Hroom|Hfull];
    try discriminate;
    try (intros [= <- <- <-]; simpl;
         repeat split; try constructor; eauto; lia).
  destruct (outer_pass cfg api csv c v) as [[next v1] evs1] eqn:Hpass.
  destruct (outer_pass_effect _ _ _ _ _ Hpass)
    as (S1 & Q1 & _ & Hnext & N1 & Hserved1 & Haud1).
  pose proof (enough_fuel_pos (num_value c)).
  destruct next as [next|].
  2:{ intros [= <- <- <-]. rewrite N1. simpl.
      repeat split; try lia; eauto. }
  pose proof (advance_window_below _ _ _ (eq_sym Hnext)) as Hbelow.
  destruct (Z.leb_spec (num_value next) 0) as [Hend|Hmore].
  - intros [= <- <- <-].
    rewrite rows_of_app, searched_app, N1, length_app. simpl.
    repeat split; try lia; eauto.
    + apply rows_served_app. split; [exact Hserved1|repeat constructor].
    + apply audited_app. split; [exact Haud1|exact I].
  - destruct (while_loop cfg api csv fuel next v1) as [[[last2 v2] evs2]|] eqn:Hrest;
      [|discriminate].
    intros [= <- <- <-].
    destruct (IH _ _ _ _ _ Hrest)
      as (S2 & Q2 & Hserved2 & Haud2 & [lower Hhead] & Hdown & Hlen).
    pose proof (enough_fuel_next (num_value c) (num_value next) Hbelow Hmore).
    rewrite rows_of_app, searched_app, N1, length_app. simpl.
    repeat split; try lia; eauto.
    + apply rows_served_app. split; assumption.
    + apply audited_app. split; [exact Haud1|]. rewrite <- S1. exact Haud2.
    + rewrite Hhead in *. split; [lia|exact Hdown].
Qed.

(** The [while] ends within [enough_fuel] passes. *)
Lemma while_loop_ends (fuel : nat) (c : Num) (v : Vars) :
  (enough_fuel (num_value c) <= fuel)%nat ->
  exists r, while_loop cfg api csv fuel c v = Some r.
Proof.
  revert c v. induction fuel as [|fuel IH]; intros c v Hfuel; simpl;
    destruct (total_saved v <? TARGET_TOTAL cfg); eauto.
  - pose proof (enough_fuel_pos (num_value c)). lia.
  - destruct (outer_pass cfg api csv c v) as [[next v1] evs1] eqn:Hpass.
    destruct (outer_pass_effect _ _ _ _ _ Hpass)
      as (_ & _ & _ & Hnext & _).
    destruct next as [next|]; eauto.
    pose proof (advance_window_below _ _ _ (eq_sym Hnext)) as Hbelow.
    destruct (Z.leb_spec (num_value next) 0) as [Hend|Hmore]; eauto.
    pose proof (enough_fuel_next (num_value c) (num_value next) Hbelow Hmore).
    destruct (IH next v1) as [[[last2 v2] evs2] ->]; [lia|]. eauto.
Qed.

(** More fuel than needed changes nothing. *)
Lemma while_loop_more_fuel (fuel fuel' : nat) (c : Num) (v : Vars)
      (r : option Num * Vars * list Event) :
  while_loop cfg api csv fuel c v = Some r -> (fuel <= fuel')%nat ->
  while_loop cfg api csv fuel' c v = Some r.
Proof.
  revert fuel' c v r. induction fuel as [|fuel IH]; intros fuel' c v r; simpl.
  - destruct fuel'; simpl; destruct (total_saved v <? TARGET_TOTAL cfg);
      try discriminate; auto.
  - destruct fuel' as [|fuel']; [lia|]. simpl.
    destruct (total_saved v <? TARGET_TOTAL cfg); auto.
    destruct (outer_pass cfg api csv c v) as [[[next|] v1] evs1]; auto.
    destruct (num_value next <=? 0); auto.
    destruct (while_loop cfg api csv fuel next v1) as [r1|] eqn:Hrest;
      [|discriminate].
    intros Hr Hle. rewrite (IH fuel' _ _ _ Hrest); [exact Hr|lia].
Qed.

(** The [while] is left by the type error only after a row whose star
    count is not a number, the last row written. *)
Lemma while_loop_raises (fuel : nat) (c : Num) (v v' : Vars)
      (evs : list Event) :
  while_loop cfg api csv fuel c v = Some (None, v', evs) ->
  exists row s,
    last (rows_of evs) = Some row
    /\ star_value row = Some s /\ as_num s = None.
Proof.
  revert c v v' evs.
  induction fuel as [|fuel IH]; intros c v v' evs; simpl;
    destruct (total_saved v <? TARGET_TOTAL cfg); try discriminate.
  destruct (outer_pass cfg api csv c v) as [[next v1] evs1] eqn:Hpass.
  destruct next as [next|].
  - destruct (num_value next <=? 0); [discriminate|].
    destruct (while_loop cfg api csv fuel next v1) as [[[last2 v2] evs2]|] eqn:Hrest;
      [|discriminate].
    intros [= -> <- <-].
    destruct (IH _ _ _ _ Hrest) as (row & s & Hlast & Hs & Hnum).
    exists row, s. rewrite rows_of_app, last_app, Hlast. auto.
  - intros [= <- <-]. apply (outer_pass_raises _ _ _ _ Hpass).
Qed.

End Facts.

(** ** The shape of a run *)

Lemma fetch_repositories_runs (cfg : Config) (api : Api) (csv : Writer) :
  exists ending v body,
    while_loop cfg api csv (enough_fuel (initial_max_stars cfg))
               (NInt (initial_max_stars cfg)) (start cfg)
    = Some (ending, v, body)
    /\ fetch_repositories cfg api csv =
       Some (ending, v,
             WriteRow (map JStr csv_headers)
               :: Print (Targeting (TARGET_TOTAL cfg))
               :: body ++ closing ending v).
Proof.
  destruct (while_loop_ends cfg api csv (enough_fuel (initial_max_stars cfg))
                           (NInt (initial_max_stars cfg)) (start cfg))
    as [[[ending v] body] Hrun]; [simpl; lia|].
  exists ending, v, body. split; [exact Hrun|].
  unfold fetch_repositories, fetch_repositories_with.
  rewrite Hrun. reflexivity.
Qed.

Lemma closing_quiet (ending : option Num) (v : Vars) :
  rows_of (closing ending v) = []
  /\ searched (closing ending v) = []
  /\ requested (closing ending v) = [].
Proof. destruct ending; repeat split. Qed.

Lemma run_searched (hdr : list Scalar) (m : Z) (body : list Event)
      (ending : option Num) (v : Vars) :
  searched (WriteRow hdr :: Print (Targeting m) :: body ++ closing ending v)
  = searched body.
Proof.
  change (searched (?a :: ?b :: ?l)) with (searched l).
  destruct (closing_quiet ending v) as (_ & Hquiet & _).
  rewrite searched_app, Hquiet. apply app_nil_r.
Qed.

Lemma run_data_rows (hdr : list Scalar) (m : Z) (body : list Event)
      (ending : option Num) (v : Vars) :
  data_rows (WriteRow hdr :: Print (Targeting m) :: body ++ closing ending v)
  = rows_of body.
Proof.
  unfold data_rows.
  change (rows_of (WriteRow hdr :: ?b :: ?l)) with (hdr :: rows_of l).
  destruct (closing_quiet ending v) as (Hquiet & _ & _).
  rewrite rows_of_app, Hquiet. apply app_nil_r.
Qed.

Lemma run_requested (hdr : list Scalar) (m : Z) (body : list Event)
      (ending : option Num) (v : Vars) :
  requested (WriteRow hdr :: Print (Targeting m) :: body ++ closing ending v)
  = requested body.
Proof.
  change (requested (?a :: ?b :: ?l)) with (requested l).
  destruct (closing_quiet ending v) as (_ & _ & Hquiet).
  rewrite requested_app, Hquiet. apply app_nil_r.
Qed.

Lemma for_pages_rate_limited (cfg : Config) (api : Api) (csv : Writer)
      (c : Num) (pg : Z) (later : list Z) (v : Vars) (body : Body) :
  api (calls v) (request_for cfg c pg) = Http 403 body ->
  for_pages cfg api csv (pg :: later) c v =
  (let '(v', evs) := for_pages cfg api csv later c (after_call v) in
   (v', [Get (request_for cfg c pg); Print RateLimitHit; Sleep 60] ++ evs)).
Proof.
  intros Hapi. simpl. unfold page_body, try_body. rewrite Hapi. simpl.
  reflexivity.
Qed.

(** ** The claims *)

(** C1: when a request returns HTTP 403 the collector pauses for the
    cooldown and leaves the saved count alone, but it does not ask for the
    same page again.  With the constants of the source, a first answer of
    403 and empty pages afterwards, the first pass requests page 1, sleeps
    60 seconds, requests page 2, and moves the ceiling to 499999: page 1 of
    the ceiling 500000 is not requested a second time. *)
Theorem rate_limit_moves_to_next_page (csv : Writer) :
  outer_pass default_config limited_api csv (NInt 500000)
             (start default_config) =
  (Some (NInt 499999),
   {| total_saved := 0; last_star_count := JInt 500000; calls := 2 |},
   [ Print (Searching (NInt 500000));
     Get {| max_stars := NInt 500000; per_page := 100; page := 1 |};
     Print RateLimitHit;
     Sleep 60;
     Get {| max_stars := NInt 500000; per_page := 100; page := 2 |} ]).
Proof. vm_compute. reflexivity. Qed.

(** C2: the ceiling never goes up from one pass of the outer loop to the
    next, it goes down by at least 1 on every pass, and so every run ends,
    after at most (initial ceiling) passes. *)
Theorem ceiling_descends_and_run_ends (cfg : Config) (api : Api)
        (csv : Writer) :
  1 <= initial_max_stars cfg ->
  exists ending v evs,
    fetch_repositories cfg api csv = Some (ending, v, evs)
    /\ (exists lower,
          searched evs ++ final_ceiling ending
          = initial_max_stars cfg :: lower)
    /\ descending (searched evs ++ final_ceiling ending)
    /\ steps_down (searched evs ++ final_ceiling ending)
    /\ Z.of_nat (length (searched evs)) <= initial_max_stars cfg.
Proof.
  intros Hpos.
  destruct (fetch_repositories_runs cfg api csv)
    as (ending & v & body & Hloop & Hrun).
  do 3 eexists. split; [exact Hrun|].
  destruct (while_loop_effect _ _ _ _ _ _ _ _ _ Hloop)
    as (_ & _ & _ & _ & Hhead & Hdown & Hlen).
  rewrite run_searched. simpl in Hhead, Hlen.
  repeat split; auto using steps_down_descending.
  unfold enough_fuel in Hlen. lia.
Qed.

Lemma ceiling_descends_and_run_ends_witness :
  exists ending v evs,
    fetch_repositories default_config limited_api always_writes
    = Some (ending, v, evs)
    /\ (exists lower,
          searched evs ++ final_ceiling ending
          = initial_max_stars default_config :: lower)
    /\ descending (searched evs ++ final_ceiling ending)
    /\ steps_down (searched evs ++ final_ceiling ending)
    /\ Z.of_nat (length (searched evs)) <= initial_max_stars default_config.
Proof.
  apply (ceiling_descends_and_run_ends default_config limited_api
                                       always_writes).
  simpl. lia.
Defined.

(** C3: whatever the API answers, the record rows written (the header row
    apart) are never more than the configured target, at any point of the
    run. *)
Theorem rows_never_exceed_target (cfg : Config) (api : Api) (csv : Writer) :
  0 <= TARGET_TOTAL cfg ->
  exists ending v evs,
    fetch_repositories cfg api csv = Some (ending, v, evs)
    /\ forall pre post,
         evs = pre ++ post ->
         Z.of_nat (length (data_rows pre)) <= TARGET_TOTAL cfg.
Proof.
  intros Htarget.
  destruct (fetch_repositories_runs cfg api csv)
    as (ending & v & body & Hloop & Hrun).
  do 3 eexists. split; [exact Hrun|].
  destruct (while_loop_effect _ _ _ _ _ _ _ _ _ Hloop) as (Hsaved & Hquota & _).
  simpl in Hsaved, Hquota.
  intros pre post Hsplit.
  apply (f_equal data_rows) in Hsplit. rewrite run_data_rows in Hsplit.
  assert (length (data_rows pre) <= length (data_rows (pre ++ post)))%nat as Hle.
  { unfold data_rows. rewrite rows_of_app.
    destruct (rows_of pre) as [|hdr rows]; simpl; [lia|].
    rewrite length_app. lia. }
  rewrite <- Hsplit in Hle. lia.
Qed.

Lemma rows_never_exceed_target_witness :
  exists ending v evs,
    fetch_repositories default_config limited_api always_writes
    = Some (ending, v, evs)
    /\ forall pre post,
         evs = pre ++ post ->
         Z.of_nat (length (data_rows pre)) <= TARGET_TOTAL default_config.
Proof.
  apply (rows_never_exceed_target default_config limited_api always_writes).
  simpl. lia.
Defined.





(** C5: a successful answer with no items stops the paging loop at once:
    nothing is written, no later page is requested, and the outer loop
    goes on to move the window (down by 1 when the empty page is the first
    of the pass). *)
Theorem empty_page_stops_paging (cfg : Config) (api : Api) (csv : Writer)
        (c : Num) (pg : Z) (later : list Z) (v : Vars)
        (found : option (list Repo)) :
  api (calls v) (request_for cfg c pg) = Http 200 (Parsed found) ->
  default [] found = [] ->
  for_pages cfg api csv (pg :: later) c v =
    (after_call v, [Get (request_for cfg c pg)])
  /\ (pg = 1 -> 1 <= PAGES_PER_QUERY cfg ->
      outer_pass cfg api csv c v =
        (Some (NInt (num_value c - 1)),
         {| total_saved := total_saved v;
            last_star_count := of_num c;
            calls := S (calls v) |},
         [Print (Searching c); Get (request_for cfg c 1)])).
Proof.
  intros Hapi Hnone. split.
  - simpl. unfold page_body, try_body. rewrite Hapi. simpl.
    rewrite Hnone. reflexivity.
  - intros -> Hpages. unfold outer_pass.
    rewrite (range_cons 1 (PAGES_PER_QUERY cfg + 1)) by lia.
    simpl. unfold page_body, try_body. simpl. rewrite Hapi. simpl.
    rewrite Hnone. simpl. unfold advance_window.
    rewrite of_num_as_num, Z.leb_refl. reflexivity.
Qed.

Lemma empty_page_stops_paging_witness :
  for_pages small_config (one_page_api []) always_writes [1; 2; 3]
            (NInt 500) (start small_config) =
    (after_call (start small_config),
     [Get (request_for small_config (NInt 500) 1)])
  /\ (1 = 1 -> 1 <= PAGES_PER_QUERY small_config ->
      outer_pass small_config (one_page_api []) always_writes (NInt 500)
                 (start small_config) =
        (Some (NInt (num_value (NInt 500) - 1)),
         {| total_saved := total_saved (start small_config);
            last_star_count := of_num (NInt 500);
            calls := S (calls (start small_config)) |},
         [Print (Searching (NInt 500));
          Get (request_for small_config (NInt 500) 1)])).
Proof.
  apply (empty_page_stops_paging small_config (one_page_api []) always_writes
           (NInt 500) 1 [2; 3] (start small_config) (Some [])); reflexivity.
Defined.




(** C7: every record row written has exactly ten fields, in the order of
    the header (name, full name, URL, description, stars, forks, open
    issues, created, updated, license name), and its license field is the
    placeholder N/A whenever the item it comes from has no license. *)
Theorem rows_have_ten_fields (cfg : Config) (api : Api) (csv : Writer) :
  exists ending v evs,
    fetch_repositories cfg api csv = Some (ending, v, evs)
    /\ rows_of evs = map JStr csv_headers :: data_rows evs
    /\ length csv_headers = 10%nat
    /\ Forall (fun row =>
                 length row = 10%nat
                 /\ exists repo, served api repo /\ row_matches repo row)
              (data_rows evs).
Proof.
  destruct (fetch_repositories_runs cfg api csv)
    as (ending & v & body & Hloop & Hrun).
  do 3 eexists. split; [exact Hrun|].
  destruct (while_loop_effect _ _ _ _ _ _ _ _ _ Hloop) as (_ & _ & Hserved & _).
  rewrite run_data_rows. split; [|split; [reflexivity|]].
  - change (rows_of (WriteRow ?h :: ?b :: ?l)) with (h :: rows_of l).
    destruct (closing_quiet ending v) as (Hquiet & _ & _).
    rewrite rows_of_app, Hquiet, app_nil_r. reflexivity.
  - eapply Forall_impl; [exact Hserved|].
    intros row (repo & Hrepo & Hrow). apply make_row_matches in Hrow.
    split; [|eauto].
    destruct Hrow as (lic & -> & _). reflexivity.
Qed.

(** C8: in every record row written, the free-text field (the description)
    is the text of the item's description with every newline character
    replaced by a blank and every other character kept at its place, so it
    holds no newline character. *)
Theorem description_has_no_newline (cfg : Config) (api : Api)
        (csv : Writer) :
  exists ending v evs,
    fetch_repositories cfg api csv = Some (ending, v, evs)
    /\ Forall (fun row =>
                 exists repo text,
                   served api repo
                   /\ make_row repo = Some row
                   /\ row !! 3%nat = Some (JStr text)
                   /\ blanked (py_str (default (JStr EmptyString)
                                               (description repo))) text
                   /\ (forall source,
                         description repo = Some (JStr source) ->
                         blanked source text)
                   /\ newline_free text)
              (data_rows evs).
Proof.
  destruct (fetch_repositories_runs cfg api csv)
    as (ending & v & body & Hloop & Hrun).
  do 3 eexists. split; [exact Hrun|].
  destruct (while_loop_effect _ _ _ _ _ _ _ _ _ Hloop) as (_ & _ & Hserved & _).
  rewrite run_data_rows.
  eapply Forall_impl; [exact Hserved|].
  intros row (repo & Hrepo & Hrow).
  pose proof Hrow as (lic & _ & ->)%make_row_shape.
  exists repo. eexists. split; [exact Hrepo|]. split; [exact Hrow|].
  split; [reflexivity|]. split; [apply replace_newlines_blanked|].
  split; [|apply replace_newlines_free].
  intros source ->. apply replace_newlines_blanked.
Qed.

Lemma last_row_last_star (evs : list Event) (row : list Scalar) (s : Scalar) :
  last (rows_of evs) = Some row -> star_value row = Some s ->
  last (stars_seen evs) = Some s.
Proof.
  intros [rows Hrows]%last_Some Hcell. unfold stars_seen.
  rewrite Hrows, omap_app. simpl. rewrite Hcell. apply last_snoc.
Qed.

(** C9: if the last item written in a pass of the outer loop has no star
    count, its stars count as 0, the ceiling after the pass is 0 (or below
    0 when the ceiling was not positive), and the outer loop ends with that
    pass. *)
Theorem missing_stars_end_the_run (cfg : Config) (api : Api) (csv : Writer)
        (fuel : nat) (c : Num) (v : Vars) (repo : Repo)
        (row : list Scalar) :
  total_saved v < TARGET_TOTAL cfg ->
  stargazers_count repo = None ->
  make_row repo = Some row ->
  last (rows_of (pass_events cfg api csv c v)) = Some row ->
  star_cell row = Some 0
  /\ last_star_count (pass_vars cfg api csv c v) = JInt 0
  /\ exists next,
       next_ceiling cfg api csv c v = Some next
       /\ num_value next <= 0
       /\ (1 <= num_value c -> next = NInt 0)
       /\ while_loop cfg api csv (S fuel) c v =
            Some (Some next, pass_vars cfg api csv c v,
                  pass_events cfg api csv c v ++ [Print ReachedZero]).
Proof.
  intros Hroom Hnone Hrow Hlast.
  assert (star_value row = Some (JInt 0)) as Hcell.
  { rewrite (make_row_star_value _ _ Hrow). unfold stars_of. rewrite Hnone.
    reflexivity. }
  split. { unfold star_cell. unfold star_value in Hcell. rewrite Hcell. reflexivity. }
  simpl. unfold next_ceiling, pass_vars, pass_events in *.
  destruct (outer_pass cfg api csv c v) as [[next v1] evs] eqn:Hpass.
  simpl in *.
  destruct (outer_pass_effect _ _ _ _ _ _ _ _ Hpass)
    as (_ & _ & Htracked & Hnext & _).
  unfold tracked in Htracked.
  rewrite (last_row_last_star _ _ _ Hlast Hcell) in Htracked.
  simpl in Htracked. split; [exact Htracked|].
  rewrite Htracked in Hnext. unfold advance_window in Hnext. simpl in Hnext.
  destruct (Z.ltb_spec (total_saved v) (TARGET_TOTAL cfg)); [|lia].
  destruct (Z.leb_spec (num_value c) 0) as [Hlow|Hhigh]; subst next.
  - eexists. split; [reflexivity|]. simpl. split; [lia|]. split; [lia|].
    destruct (Z.leb_spec (num_value c - 1) 0); [reflexivity|lia].
  - eexists. split; [reflexivity|]. simpl. split; [lia|].
    split; reflexivity.
Qed.

Lemma missing_stars_end_the_run_witness :
  star_cell [ JStr "repo"; JNull; JNull; JStr EmptyString; JInt 0; JNull;
              JNull; JNull; JNull; JStr "N/A" ] = Some 0
  /\ last_star_count
       (pass_vars small_config (one_page_api [Some 120; None]) always_writes
                  (NInt 500) (start small_config)) = JInt 0
  /\ exists next,
       next_ceiling small_config (one_page_api [Some 120; None])
                    always_writes (NInt 500) (start small_config) = Some next
       /\ num_value next <= 0
       /\ (1 <= num_value (NInt 500) -> next = NInt 0)
       /\ while_loop small_config (one_page_api [Some 120; None])
                     always_writes 1 (NInt 500) (start small_config) =
            Some (Some next,
                  pass_vars small_config (one_page_api [Some 120; None])
                            always_writes (NInt 500) (start small_config),
                  pass_events small_config (one_page_api [Some 120; None])
                              always_writes (NInt 500) (start small_config)
                    ++ [Print ReachedZero]).
Proof.
  apply (missing_stars_end_the_run small_config
           (one_page_api [Some 120; None]) always_writes 0 (NInt 500)
           (start small_config) (item "repo" None)).
  - reflexivity.
  - reflexivity.
  - reflexivity.
  - vm_compute. reflexivity.
Defined.

(** C10: all along the run the saved-record counter is the number of
    record rows written so far: every count the collector prints is the
    number of record rows written before it, and the closing message,
    printed whenever the function returns, gives the number of record rows
    of the file. *)
Theorem counter_matches_rows (cfg : Config) (api : Api) (csv : Writer) :
  exists ending v evs,
    fetch_repositories cfg api csv = Some (ending, v, evs)
    /\ total_saved v = Z.of_nat (length (data_rows evs))
    /\ (is_Some ending ->
        last evs = Some (Print (Done (Z.of_nat (length (data_rows evs))))))
    /\ (forall pre post n target lowest,
          evs = pre ++ Print (Progress n target lowest) :: post ->
          n = Z.of_nat (length (data_rows pre)))
    /\ (forall pre post n,
          evs = pre ++ Print (Done n) :: post ->
          n = Z.of_nat (length (data_rows pre))).
Proof.
  destruct (fetch_repositories_runs cfg api csv)
    as (ending & v & body & Hloop & Hrun).
  do 3 eexists. split; [exact Hrun|].
  destruct (while_loop_effect _ _ _ _ _ _ _ _ _ Hloop)
    as (Hsaved & _ & _ & Haud & _).
  simpl in Hsaved, Haud. rewrite run_data_rows.
  assert (total_saved v = Z.of_nat (length (rows_of body))) as Hcount by lia.
  assert (audited 0 (body ++ closing ending v)) as Hall.
  { apply audited_app. split; [exact Haud|].
    destruct ending; simpl; [split; [lia|exact I]|exact I]. }
  split; [exact Hcount|]. split.
  { intros [c ->]. rewrite <- Hcount. unfold closing.
    exact (last_snoc (Print (Done (total_saved v)))
                     (WriteRow (map JStr csv_headers)
                        :: Print (Targeting (TARGET_TOTAL cfg)) :: body)). }
  split.
  - intros pre post n target lowest Hsplit.
    destruct pre as [|e1 [|e2 pre]]; try discriminate Hsplit.
    injection Hsplit as <- <- Hsplit. rewrite Hsplit in Hall.
    apply audited_progress in Hall.
    change (data_rows (WriteRow ?h :: ?b :: pre)) with (rows_of pre). lia.
  - intros pre post n Hsplit.
    destruct pre as [|e1 [|e2 pre]]; try discriminate Hsplit.
    injection Hsplit as <- <- Hsplit. rewrite Hsplit in Hall.
    apply audited_done in Hall.
    change (data_rows (WriteRow ?h :: ?b :: pre)) with (rows_of pre). lia.
Qed.

(** ** Scenarios of the specification, run on the model *)

(** Five records wanted and one page of five items with stars 120, 110,
    100, 90, 80: five rows are written in one pass and the run ends. *)
Example quota_met_on_first_page :
  match fetch_repositories small_config
          (one_page_api [Some 120; Some 110; Some 100; Some 90; Some 80])
          always_writes with
  | Some (ending, v, evs) =>
      length (data_rows evs) = 5%nat
      /\ stars_written evs = [120; 110; 100; 90; 80]
      /\ searched evs = [500]
      /\ total_saved v = 5
      /\ ending = Some (NInt 80)
  | None => False
  end.
Proof. vm_compute. repeat split. Qed.

(** Windows whose records all sit at or above the ceiling: the ceiling
    goes down by exactly 1 each time. *)
Example saturated_windows_step_by_one :
  match fetch_repositories
          {| TARGET_TOTAL := 5; RESULTS_PER_PAGE := 1;
             PAGES_PER_QUERY := 1; initial_max_stars := 3 |}
          (fun _ _ => Http 200 (Parsed (Some [item "top" (Some 3)])))
          always_writes with
  | Some (ending, v, evs) =>
      searched evs = [3; 2; 1] /\ ending = Some (NInt 0) /\ total_saved v = 3
  | None => False
  end.
Proof. vm_compute. repeat split. Qed.

(** A star count that is the Boolean true is written as it is and becomes
    the ceiling; the next pass asks for it, finds nothing, and takes 1 off
    the integer it counts as. *)
Example boolean_star_count_becomes_ceiling :
  fetch_repositories small_config
    (fun n _ =>
       match n with
       | O => Http 200 (Parsed (Some [
                {| name := None; full_name := None; html_url := None;
                   description := None; stargazers_count := Some (JBool true);
                   forks_count := None; open_issues_count := None;
                   created_at := None; updated_at := None;
                   license := None |} ]))
       | S _ => Http 200 (Parsed (Some []))
       end)
    always_writes
  = Some (Some (NInt 0),
          {| total_saved := 1; last_star_count := JBool true; calls := 3 |},
          [ WriteRow (map JStr csv_headers);
            Print (Targeting 5);
            Print (Searching (NInt 500));
            Get {| max_stars := NInt 500; per_page := 100; page := 1 |};
            WriteRow [ JNull; JNull; JNull; JStr EmptyString; JBool true;
                       JNull; JNull; JNull; JNull; JStr "N/A" ];
            Print (Progress 1 5 (JBool true));
            Sleep 2;
            Get {| max_stars := NInt 500; per_page := 100; page := 2 |};
            Print (Searching (NBool true));
            Get {| max_stars := NBool true; per_page := 100; page := 1 |};
            Print ReachedZero;
            Print (Done 1) ]).
Proof. vm_compute. reflexivity. Qed.

(** A writer that refuses the second row of a page: the first row is
    written, the page stops with the failure message, and the window moves
    to the star count of the row written. *)
Example refused_row_stops_the_page :
  outer_pass small_config (one_page_api [Some 9; Some 8; Some 7])
             (fun _ saved _ => saved =? 0) (NInt 500) (start small_config)
  = (Some (NInt 9),
     {| total_saved := 1; last_star_count := JInt 9; calls := 1 |},
     [ Print (Searching (NInt 500));
       Get {| max_stars := NInt 500; per_page := 100; page := 1 |};
       WriteRow [ JStr "repo"; JNull; JNull; JStr EmptyString; JInt 9; JNull;
                  JNull; JNull; JNull; JStr "N/A" ];
       Print RequestFailed ]).
Proof. vm_compute. reflexivity. Qed.

(** A description over two lines is written on one. *)
Example description_on_one_line :
  make_row {| name := None; full_name := None; html_url := None;
              description :=
                Some (JStr (String.append "a" (String LF "b")));
              stargazers_count := Some (JInt 1);
              forks_count := None; open_issues_count := None;
              created_at := None; updated_at := None;
              license := Some (JObj {[ "name" := JStr "MIT License" ]}) |}
  = Some [ JNull; JNull; JNull; JStr "a b"; JInt 1; JNull; JNull; JNull;
           JNull; JStr "MIT License" ].
Proof. vm_compute. reflexivity. Qed.

(** ** Beyond the claims: the row *)

Lemma replace_newlines_clean (s : string) :
  newline_free s -> replace_newlines s = s.
Proof.
  unfold newline_free. induction s as [|a s IH]; simpl; [reflexivity|].
  intros Hfree. destruct (Ascii.eqb_spec a LF) as [->|Hne]; [tauto|].
  rewrite IH; [reflexivity|tauto].
Qed.

(** X1: replacing the newlines leaves a text without line feed as it is
    (so replacing twice is replacing once). *)
Theorem replace_newlines_keeps_clean_text (s : string) :
  newline_free s ->
  replace_newlines s = s
  /\ replace_newlines (replace_newlines s) = replace_newlines s.
Proof.
  intros Hfree. split; [apply replace_newlines_clean, Hfree|].
  apply replace_newlines_clean, replace_newlines_free.
Qed.

Lemma replace_newlines_keeps_clean_text_witness :
  replace_newlines "A tool for Go" = "A tool for Go"
  /\ replace_newlines (replace_newlines "A tool for Go")
     = replace_newlines "A tool for Go".
Proof.
  apply (replace_newlines_keeps_clean_text "A tool for Go").
  unfold newline_free. vm_compute. intuition discriminate.
Defined.

(** X3: a description that is a text without line feed is written as it
    is. *)
Theorem clean_description_written_unchanged (repo : Repo) (text : string)
        (row : list Scalar) :
  description repo = Some (JStr text) ->
  newline_free text ->
  make_row repo = Some row ->
  row !! 3%nat = Some (JStr text).
Proof.
  intros Hdesc Hfree (lic & _ & ->)%make_row_shape.
  rewrite Hdesc. simpl. rewrite (replace_newlines_clean _ Hfree). reflexivity.
Qed.

Lemma clean_description_written_unchanged_witness :
  [ JStr "repo"; JNull; JNull; JStr "A tool for Go"; JInt 3; JNull; JNull;
    JNull; JNull; JStr "N/A" ] !! 3%nat = Some (JStr "A tool for Go").
Proof.
  apply (clean_description_written_unchanged
           {| name := Some (JStr "repo"); full_name := None; html_url := None;
              description := Some (JStr "A tool for Go");
              stargazers_count := Some (JInt 3);
              forks_count := None; open_issues_count := None;
              created_at := None; updated_at := None; license := None |}).
  - reflexivity.
  - unfold newline_free. vm_compute. intuition discriminate.
  - reflexivity.
Defined.

(** X4: an item without the description key gets the empty text as its
    description, and an item whose description is null gets the text
    None. *)
Theorem missing_or_null_description (repo : Repo) (row : list Scalar) :
  make_row repo = Some row ->
  (description repo = None -> row !! 3%nat = Some (JStr EmptyString))
  /\ (description repo = Some JNull -> row !! 3%nat = Some (JStr "None")).
Proof.
  intros (lic & _ & ->)%make_row_shape.
  split; intros ->; reflexivity.
Qed.

Lemma missing_or_null_description_witness :
  (description
     {| name := None; full_name := None; html_url := None;
        description := Some JNull; stargazers_count := Some (JInt 3);
        forks_count := None; open_issues_count := None;
        created_at := None; updated_at := None; license := None |} = None ->
   [ JNull; JNull; JNull; JStr "None"; JInt 3; JNull; JNull; JNull; JNull;
     JStr "N/A" ] !! 3%nat = Some (JStr EmptyString))
  /\ (description
        {| name := None; full_name := None; html_url := None;
           description := Some JNull; stargazers_count := Some (JInt 3);
           forks_count := None; open_issues_count := None;
           created_at := None; updated_at := None; license := None |}
      = Some JNull ->
      [ JNull; JNull; JNull; JStr "None"; JInt 3; JNull; JNull; JNull; JNull;
        JStr "N/A" ] !! 3%nat = Some (JStr "None")).
Proof.
  apply (missing_or_null_description
           {| name := None; full_name := None; html_url := None;
              description := Some JNull; stargazers_count := Some (JInt 3);
              forks_count := None; open_issues_count := None;
              created_at := None; updated_at := None; license := None |}).
  reflexivity.
Defined.

(** ** Beyond the claims: headers and parameters *)

(** X5: the Accept header is always sent; the Authorization header is
    sent exactly when the token is set and not empty, and is then the word
    Bearer, a blank and the token; the warning is printed exactly when no
    Authorization header is sent. *)
Theorem auth_headers_by_token (token : option string) :
  (auth_headers token).2 !! "Accept" = Some accept_v3
  /\ (auth_headers token).2 !! "Authorization" =
     match token with
     | Some t => if String.eqb t EmptyString then None
                 else Some ("Bearer " +:+ t)
     | None => None
     end
  /\ ((auth_headers token).1 = true <->
      (auth_headers token).2 !! "Authorization" = None).
Proof.
  unfold auth_headers. destruct token as [t|]; [destruct (String.eqb t _)|];
    simpl; repeat split; try reflexivity; try discriminate.
Qed.

Lemma params_lookup (rq : Request) :
  params rq !! "q" = Some (JStr (query (max_stars rq)))
  /\ params rq !! "sort" = Some (JStr "stars")
  /\ params rq !! "order" = Some (JStr "desc")
  /\ params rq !! "per_page" = Some (JInt (per_page rq))
  /\ params rq !! "page" = Some (JInt (page rq)).
Proof. unfold params. repeat split; by simplify_map_eq. Qed.

(** The digits of a number never start with a letter. *)
Lemma pretty_N_go_first (a : Ascii.ascii) (x : N) (s s' : string) :
  (forall d, pretty_N_char d <> a) ->
  s <> String a s' -> pretty_N_go x s <> String a s'.
Proof.
  intros Ha. revert s. induction (N.lt_wf_0 x) as [x _ IH]; intros s Hs.
  assert (x = 0 \/ 0 < x)%N as [->|Hpos] by lia.
  - rewrite pretty_N_go_0. exact Hs.
  - rewrite pretty_N_go_step by exact Hpos. apply IH.
    + apply N.div_lt; [exact Hpos|reflexivity].
    + intros [= Hchar _]. exact (Ha _ Hchar).
Qed.

Lemma pretty_Z_first (a : Ascii.ascii) (n : Z) (s' : string) :
  (forall d, pretty_N_char d <> a) ->
  a <> Ascii.ascii_of_nat 45 ->
  pretty n <> String a s'.
Proof.
  intros Ha Hdash. destruct n as [|p|p].
  - intros [= Hchar _]. exact (Ha 0%N Hchar).
  - change (pretty (Z.pos p)) with (pretty_N_go (N.pos p) EmptyString).
    apply pretty_N_go_first; [exact Ha|discriminate].
  - intros [= Hchar _]. exact (Hdash (eq_sym Hchar)).
Qed.

Lemma digits_are_not_T (d : N) : pretty_N_char d <> Ascii.ascii_of_nat 84.
Proof. unfold pretty_N_char. repeat case_match; discriminate. Qed.

Lemma digits_are_not_F (d : N) : pretty_N_char d <> Ascii.ascii_of_nat 70.
Proof. unfold pretty_N_char. repeat case_match; discriminate. Qed.

(** The text of a number tells the number: an integer never prints as
    [True] or [False]. *)
Lemma py_str_of_num_inj (c1 c2 : Num) :
  py_str (of_num c1) = py_str (of_num c2) -> c1 = c2.
Proof.
  destruct c1 as [n1|b1], c2 as [n2|b2]; simpl.
  - intros H. apply (inj pretty) in H. congruence.
  - intros H. exfalso. destruct b2.
    + exact (pretty_Z_first _ n1 _ digits_are_not_T ltac:(discriminate) H).
    + exact (pretty_Z_first _ n1 _ digits_are_not_F ltac:(discriminate) H).
  - intros H. exfalso. symmetry in H. destruct b1.
    + exact (pretty_Z_first _ n2 _ digits_are_not_T ltac:(discriminate) H).
    + exact (pretty_Z_first _ n2 _ digits_are_not_F ltac:(discriminate) H).
  - destruct b1, b2; intros H; try reflexivity; discriminate H.
Qed.

(** X6: the parameters of a request tell its window, its page size and
    its page: two requests with the same parameters are the same. *)
Theorem params_determine_request (rq1 rq2 : Request) :
  params rq1 = params rq2 -> rq1 = rq2.
Proof.
  intros Heq.
  pose proof (f_equal (fun m => m !! "q") Heq) as Hq.
  pose proof (f_equal (fun m => m !! "per_page") Heq) as Hper.
  pose proof (f_equal (fun m => m !! "page") Heq) as Hpage.
  destruct (params_lookup rq1) as (Hq1 & _ & _ & Hper1 & Hpage1).
  destruct (params_lookup rq2) as (Hq2 & _ & _ & Hper2 & Hpage2).
  cbv beta in Hq, Hper, Hpage.
  rewrite Hq1, Hq2 in Hq. rewrite Hper1, Hper2 in Hper.
  rewrite Hpage1, Hpage2 in Hpage.
  injection Hq as Hq. injection Hper as Hper. injection Hpage as Hpage.
  unfold query in Hq. apply (inj (String.append _)) in Hq.
  apply py_str_of_num_inj in Hq.
  destruct rq1, rq2. simpl in *. congruence.
Qed.

Lemma params_determine_request_witness :
  {| max_stars := NInt 500; per_page := 100; page := 1 |}
  = {| max_stars := NInt 500; per_page := 100; page := 1 |}.
Proof.
  apply (params_determine_request
           {| max_stars := NInt 500; per_page := 100; page := 1 |}
           {| max_stars := NInt 500; per_page := 100; page := 1 |}).
  reflexivity.
Defined.

(** ** Beyond the claims: the items of a page *)

(** X7: the rows written for a page are the rows of its first [k] items,
    in their order; [k] is the number of items or the room left under the
    target, whichever is smaller, unless building the row of item [k]
    raised or the writer refused it, which stops the page there. *)
Theorem write_items_writes_a_prefix (cfg : Config) (csv : Writer)
        (items : list Repo) (v v' : Vars) (raised : bool)
        (evs : list Event) :
  write_items cfg csv items v = (raised, v', evs) ->
  exists (k : nat) (rows : list (list Scalar)),
    evs = WriteRow <$> rows
    /\ Forall2 (fun repo row => make_row repo = Some row) (take k items) rows
    /\ total_saved v' = total_saved v + Z.of_nat k
    /\ (k <= length items `min` Z.to_nat (TARGET_TOTAL cfg - total_saved v))%nat
    /\ (raised = false ->
        k = (length items `min` Z.to_nat (TARGET_TOTAL cfg - total_saved v))%nat)
    /\ (raised = true ->
        exists repo,
          items !! k = Some repo
          /\ (make_row repo = None
              \/ exists row,
                   make_row repo = Some row
                   /\ csv (calls v) (total_saved v + Z.of_nat k) row = false)).
Proof.
  revert v v' raised evs.
  induction items as [|repo rest IH]; intros v v' raised evs;
    cbn [write_items].
  - intros [= <- <- <-]. exists 0%nat, [].
    split; [reflexivity|]. split; [constructor|].
    split; [lia|]. split; [lia|]. split; [intros _; simpl; lia|discriminate].
  - destruct (Z.leb_spec (TARGET_TOTAL cfg) (total_saved v)) as [Hfull|Hroom].
    { intros [= <- <- <-]. exists 0%nat, [].
      split; [reflexivity|]. split; [constructor|].
      split; [lia|]. split; [lia|]. split; [intros _; lia|discriminate]. }
    destruct (make_row repo) as [row|] eqn:Hrow.
    2:{ intros [= <- <- <-]. exists 0%nat, [].
        split; [reflexivity|]. split; [constructor|].
        split; [lia|]. split; [lia|]. split; [discriminate|].
        intros _. exists repo. split; [reflexivity|]. left. exact Hrow. }
    destruct (csv (calls v) (total_saved v) row) eqn:Hcsv.
    2:{ intros [= <- <- <-]. exists 0%nat, [].
        split; [reflexivity|]. split; [constructor|].
        split; [lia|]. split; [lia|]. split; [discriminate|].
        intros _. exists repo. split; [reflexivity|]. right.
        exists row. split; [exact Hrow|].
        replace (total_saved v + Z.of_nat 0) with (total_saved v) by lia.
        exact Hcsv. }
    destruct (write_items cfg csv rest _) as [[raised1 v2] evs1] eqn:Hrest.
    intros [= <- <- <-].
    destruct (IH _ _ _ _ Hrest) as (k & rows & -> & Hrows & Hsaved & Hle & Hall & Hfail).
    cbn [total_saved calls] in Hsaved, Hle, Hall, Hfail.
    exists (S k), (row :: rows).
    split; [reflexivity|]. split; [constructor; assumption|].
    cbn [length]. split; [lia|]. split; [lia|]. split.
    + intros Hno. specialize (Hall Hno). lia.
    + intros Hyes. destruct (Hfail Hyes) as (repo' & Hk & Hwhy).
      exists repo'. split; [exact Hk|].
      replace (total_saved v + Z.of_nat (S k))
        with (total_saved v + 1 + Z.of_nat k) by lia.
      exact Hwhy.
Qed.

Lemma write_items_writes_a_prefix_witness :
  exists (k : nat) (rows : list (list Scalar)),
    [ WriteRow [ JStr "a"; JNull; JNull; JStr EmptyString; JInt 9; JNull;
                 JNull; JNull; JNull; JStr "N/A" ] ] = WriteRow <$> rows
    /\ Forall2 (fun repo row => make_row repo = Some row)
               (take k three_items) rows
    /\ 4 = 3 + Z.of_nat k
    /\ (k <= length three_items
             `min` Z.to_nat (TARGET_TOTAL small_config - 3))%nat
    /\ (true = false ->
        k = (length three_items
               `min` Z.to_nat (TARGET_TOTAL small_config - 3))%nat)
    /\ (true = true ->
        exists repo,
          three_items !! k = Some repo
          /\ (make_row repo = None
              \/ exists row,
                   make_row repo = Some row
                   /\ (fun (_ : nat) (saved : Z) (_ : list Scalar) =>
                         saved =? 3) 1%nat (3 + Z.of_nat k) row = false)).
Proof.
  apply (write_items_writes_a_prefix small_config
           (fun _ saved _ => saved =? 3) three_items
           {| total_saved := 3; last_star_count := JInt 10; calls := 1 |}
           {| total_saved := 4; last_star_count := JInt 9; calls := 1 |}).
  reflexivity.
Defined.

(** ** Beyond the claims: the requests of a pass *)

Lemma no_request_asks_below (target saved : Z) (evs : list Event) :
  requested evs = [] -> asks_below target saved evs.
Proof.
  revert saved. induction evs as [|e evs IH]; intros saved; [done|].
  destruct e as [rq|secs|m|row]; simpl; try discriminate; intros H;
    apply IH; exact H.
Qed.

Lemma asks_below_app (target saved : Z) (e1 e2 : list Event) :
  asks_below target saved (e1 ++ e2) <->
  asks_below target saved e1
  /\ asks_below target (saved + Z.of_nat (length (rows_of e1))) e2.
Proof.
  revert saved. induction e1 as [|e e1 IH]; intros saved.
  - simpl. rewrite Z.add_0_r. tauto.
  - destruct e as [rq|secs|m|row].
    + change (rows_of (Get rq :: e1)) with (rows_of e1). simpl.
      rewrite IH. tauto.
    + apply IH.
    + apply IH.
    + rewrite rows_of_write, length_cons. simpl. rewrite IH.
      replace (saved + 1 + Z.of_nat (length (rows_of e1)))
        with (saved + Z.of_nat (S (length (rows_of e1)))) by lia.
      tauto.
Qed.

Lemma no_request_paced (rested : bool) (evs : list Event) :
  requested evs = [] -> paced rested evs.
Proof.
  revert rested. induction evs as [|e evs IH]; intros rested; [done|].
  destruct e as [rq|secs|m|row]; simpl; try discriminate; intros H;
    apply IH; exact H.
Qed.

Lemma paced_app (rested : bool) (e1 e2 : list Event) :
  paced rested (e1 ++ e2) <->
  paced rested e1 /\ paced (rested_after rested e1) e2.
Proof.
  revert rested. induction e1 as [|e e1 IH]; intros rested; [simpl; tauto|].
  destruct e as [rq|secs|m|row]; simpl; rewrite IH; tauto.
Qed.

Lemma rested_after_sleep (rested : bool) (evs : list Event) (secs : Z) :
  rested_after rested (evs ++ [Sleep secs]) = true.
Proof.
  revert rested. induction evs as [|e evs IH]; intros rested; [reflexivity|].
  destruct e; simpl; apply IH.
Qed.

Lemma paced_pause_between (rested : bool) (pre mid post : list Event)
      (rq rq' : Request) :
  paced rested (pre ++ Get rq :: mid ++ Get rq' :: post) ->
  exists secs, In (Sleep secs) mid.
Proof.
  rewrite paced_app. simpl. intros (_ & _ & Hmid). clear pre rested rq.
  induction mid as [|e mid IH]; simpl in Hmid.
  - destruct Hmid as [[=] _].
  - destruct e as [rq|secs|m|row].
    + destruct Hmid as [[=] _].
    + exists secs. left. reflexivity.
    + destruct (IH Hmid) as [secs Hin]. exists secs. right. exact Hin.
    + destruct (IH Hmid) as [secs Hin]. exists secs. right. exact Hin.
Qed.

Section Requests.

Variable cfg : Config.
Variable api : Api.
Variable csv : Writer.

(** A page starts with its request and sends no other; when the loop goes
    on to the next page, the page ended with a pause and the target is
    still ahead. *)
Lemma page_body_shape (c : Num) (pg : Z) (v v1 : Vars) (flow : Flow)
      (evs : list Event) :
  page_body cfg api csv c pg v = (flow, v1, evs) ->
  exists rest,
    evs = Get (request_for cfg c pg) :: rest
    /\ requested rest = []
    /\ (flow = Next ->
        (exists rest' secs, rest = rest' ++ [Sleep secs])
        /\ (total_saved v < TARGET_TOTAL cfg ->
            total_saved v1 < TARGET_TOTAL cfg)).
Proof.
  unfold page_body, try_body.
  set (rq := request_for cfg c pg).
  destruct (api (calls v) rq) as [|status body].
  { intros [= <- <- <-]. eexists. split; [reflexivity|]. split; [done|done]. }
  destruct (status =? 403).
  { intros [= <- <- <-]. eexists. split; [reflexivity|]. split; [done|].
    intros _. split; [|done]. exists [Print RateLimitHit], 60. reflexivity. }
  destruct (negb (status =? 200)).
  { intros [= <- <- <-]. eexists. split; [reflexivity|]. split; [done|done]. }
  destruct body as [|found].
  { intros [= <- <- <-]. eexists. split; [reflexivity|]. split; [done|done]. }
  destruct (default [] found) as [|repo rest].
  { intros [= <- <- <-]. eexists. split; [reflexivity|]. split; [done|done]. }
  destruct (write_items cfg csv (repo :: rest) (after_call v))
    as [[raised v2] evs2] eqn:Hw.
  destruct (write_items_effect _ _ _ _ _ _ _ Hw) as (_ & Hquiet & _).
  destruct raised; cbv iota.
  { intros [= <- <- <-]. eexists. split; [reflexivity|].
    split; [|done]. rewrite requested_app, Hquiet. reflexivity. }
  destruct (Z.leb_spec (TARGET_TOTAL cfg) (total_saved v2)); cbv iota.
  - intros [= <- <- <-]. eexists. split; [reflexivity|].
    split; [|done]. rewrite requested_app, Hquiet. reflexivity.
  - intros [= <- <- <-]. eexists. split; [reflexivity|].
    split; [rewrite requested_app, Hquiet; reflexivity|].
    intros _. split; [|intros _; assumption].
    eexists (evs2 ++ [_]), 2. rewrite <- app_assoc. reflexivity.
Qed.

Lemma for_pages_requests (pages : list Z) (c : Num) (v v1 : Vars)
      (evs : list Event) :
  for_pages cfg api csv pages c v = (v1, evs) ->
  exists k : nat, requested evs = request_for cfg c <$> take k pages.
Proof.
  revert v v1 evs. induction pages as [|pg later IH]; intros v v1 evs; simpl.
  - intros [= <- <-]. exists 0%nat. reflexivity.
  - destruct (page_body cfg api csv c pg v) as [[flow v2] evs2] eqn:Hpage.
    destruct (page_body_shape _ _ _ _ _ _ Hpage) as (rest & -> & Hrest & _).
    destruct flow.
    + destruct (for_pages cfg api csv later c v2) as [v3 evs3] eqn:Hlater.
      intros [= <- <-]. destruct (IH _ _ _ Hlater) as [k Hk].
      exists (S k).
      change (requested (Get ?r :: ?l)) with (r :: requested l).
      rewrite requested_app, Hrest, Hk. reflexivity.
    + intros [= <- <-]. exists 1%nat.
      change (requested (Get ?r :: rest)) with (r :: requested rest).
      rewrite Hrest. reflexivity.
Qed.

Lemma for_pages_asks_below (pages : list Z) (c : Num) (v v1 : Vars)
      (evs : list Event) :
  for_pages cfg api csv pages c v = (v1, evs) ->
  total_saved v < TARGET_TOTAL cfg ->
  asks_below (TARGET_TOTAL cfg) (total_saved v) evs.
Proof.
  revert v v1 evs. induction pages as [|pg later IH]; intros v v1 evs; simpl.
  - intros [= <- <-] _. exact I.
  - destruct (page_body cfg api csv c pg v) as [[flow v2] evs2] eqn:Hpage.
    destruct (page_body_shape _ _ _ _ _ _ Hpage) as (rest & Hevs & Hrest & Hnext).
    destruct (page_body_effect _ _ _ _ _ _ _ _ _ Hpage) as [[S1 _ _ _ _] _].
    assert (total_saved v < TARGET_TOTAL cfg ->
            asks_below (TARGET_TOTAL cfg) (total_saved v) evs2) as Hthis.
    { intros Hroom. rewrite Hevs. simpl. split; [exact Hroom|].
      apply no_request_asks_below, Hrest. }
    destruct flow.
    + destruct (for_pages cfg api csv later c v2) as [v3 evs3] eqn:Hlater.
      intros [= <- <-] Hroom. apply asks_below_app. split; [auto|].
      rewrite <- S1. apply (IH _ _ _ Hlater).
      destruct (Hnext eq_refl) as [_ Hstill]. auto.
    + intros [= <- <-]. exact Hthis.
Qed.

Lemma for_pages_paced (pages : list Z) (c : Num) (v v1 : Vars)
      (evs : list Event) :
  for_pages cfg api csv pages c v = (v1, evs) -> paced true evs.
Proof.
  revert v v1 evs. induction pages as [|pg later IH]; intros v v1 evs; simpl.
  - intros [= <- <-]. exact I.
  - destruct (page_body cfg api csv c pg v) as [[flow v2] evs2] eqn:Hpage.
    destruct (page_body_shape _ _ _ _ _ _ Hpage) as (rest & -> & Hrest & Hnext).
    assert (paced true (Get (request_for cfg c pg) :: rest)) as Hthis.
    { simpl. split; [reflexivity|]. apply no_request_paced, Hrest. }
    destruct flow.
    + destruct (for_pages cfg api csv later c v2) as [v3 evs3] eqn:Hlater.
      intros [= <- <-].
      apply (paced_app true (Get (request_for cfg c pg) :: rest) evs3).
      split; [exact Hthis|].
      destruct (Hnext eq_refl) as [(rest' & secs & ->) _].
      change (rested_after true (Get ?r :: ?l)) with (rested_after false l).
      rewrite rested_after_sleep.
      apply (IH _ _ _ Hlater).
    + intros [= <- <-]. exact Hthis.
Qed.

End Requests.

Lemma pass_events_requests (cfg : Config) (api : Api) (csv : Writer)
      (c : Num) (v : Vars) :
  exists k : nat,
    requested (pass_events cfg api csv c v)
    = request_for cfg c <$> take k (range 1 (PAGES_PER_QUERY cfg + 1)).
Proof.
  unfold pass_events, outer_pass.
  destruct (for_pages cfg api csv _ c _) as [v1 evs] eqn:Hpages.
  destruct (for_pages_requests _ _ _ _ _ _ _ _ Hpages) as [k Hk].
  exists k. exact Hk.
Qed.

(** X8: within a pass of the outer loop, the requests ask for the pages
    1, 2, 3, ... of the window of that pass, each with the configured page
    size, and never for a page beyond the configured number of pages. *)
Theorem pass_requests_consecutive_pages (cfg : Config) (api : Api)
        (csv : Writer) (c : Num) (v : Vars) (i : nat) (rq : Request) :
  requested (pass_events cfg api csv c v) !! i = Some rq ->
  rq = {| max_stars := c;
          per_page := RESULTS_PER_PAGE cfg;
          page := 1 + Z.of_nat i |}
  /\ 1 + Z.of_nat i <= PAGES_PER_QUERY cfg
  /\ (length (requested (pass_events cfg api csv c v))
      <= Z.to_nat (PAGES_PER_QUERY cfg))%nat.
Proof.
  destruct (pass_events_requests cfg api csv c v) as [k ->]. intros Hrq.
  apply list_lookup_fmap_Some in Hrq as (pg & -> & Hpg).
  apply lookup_take_Some in Hpg as [Hpg _].
  apply range_lookup in Hpg as [-> Hlt].
  split; [reflexivity|]. split; [lia|].
  rewrite length_fmap, length_take, range_length. lia.
Qed.

Lemma pass_requests_consecutive_pages_witness :
  {| max_stars := NInt 500000; per_page := 100; page := 2 |}
  = {| max_stars := NInt 500000;
       per_page := RESULTS_PER_PAGE default_config;
       page := 1 + Z.of_nat 1 |}
  /\ 1 + Z.of_nat 1 <= PAGES_PER_QUERY default_config
  /\ (length (requested (pass_events default_config limited_api always_writes
                                     (NInt 500000) (start default_config)))
      <= Z.to_nat (PAGES_PER_QUERY default_config))%nat.
Proof.
  apply (pass_requests_consecutive_pages default_config limited_api
           always_writes (NInt 500000) (start default_config) 1).
  vm_compute. reflexivity.
Defined.

(** X9: within a pass of the outer loop, the collector always pauses
    between two requests. *)
Theorem pass_pauses_between_requests (cfg : Config) (api : Api)
        (csv : Writer) (c : Num) (v : Vars) (pre mid post : list Event)
        (rq rq' : Request) :
  pass_events cfg api csv c v = pre ++ Get rq :: mid ++ Get rq' :: post ->
  exists secs, In (Sleep secs) mid.
Proof.
  unfold pass_events, outer_pass.
  destruct (for_pages cfg api csv _ c _) as [v1 evs] eqn:Hpages. simpl.
  pose proof (for_pages_paced _ _ _ _ _ _ _ _ Hpages) as Hpaced.
  intros Hsplit.
  apply (paced_pause_between true pre mid post rq rq').
  rewrite <- Hsplit. exact Hpaced.
Qed.

Lemma pass_pauses_between_requests_witness :
  exists secs, In (Sleep secs) [Print RateLimitHit; Sleep 60].
Proof.
  apply (pass_pauses_between_requests default_config limited_api
           always_writes (NInt 500000) (start default_config)
           [Print (Searching (NInt 500000))] [Print RateLimitHit; Sleep 60] []
           {| max_stars := NInt 500000; per_page := 100; page := 1 |}
           {| max_stars := NInt 500000; per_page := 100; page := 2 |}).
  vm_compute. reflexivity.
Defined.

(** ** Beyond the claims: the requests of a run *)

Lemma asks_below_request (target saved : Z) (pre post : list Event)
      (rq : Request) :
  asks_below target saved (pre ++ Get rq :: post) ->
  saved + Z.of_nat (length (rows_of pre)) < target.
Proof. rewrite asks_below_app. simpl. tauto. Qed.

Section Runs.

Variable cfg : Config.
Variable api : Api.
Variable csv : Writer.

Lemma outer_pass_asks_below (c : Num) (v v1 : Vars) (next : option Num)
      (evs : list Event) :
  outer_pass cfg api csv c v = (next, v1, evs) ->
  total_saved v < TARGET_TOTAL cfg ->
  asks_below (TARGET_TOTAL cfg) (total_saved v) evs.
Proof.
  unfold outer_pass.
  destruct (for_pages cfg api csv _ c _) as [v2 evs2] eqn:Hpages.
  intros [= <- <- <-] Hroom.
  apply (for_pages_asks_below _ _ _ _ _ _ _ _ Hpages). exact Hroom.
Qed.

Lemma while_loop_asks_below (fuel : nat) (c : Num) (v v' : Vars)
      (ending : option Num) (evs : list Event) :
  while_loop cfg api csv fuel c v = Some (ending, v', evs) ->
  asks_below (TARGET_TOTAL cfg) (total_saved v) evs.
Proof.
  revert c v v' ending evs.
  induction fuel as [|fuel IH]; intros c v v' ending evs; simpl;
    destruct (Z.ltb_spec (total_saved v) (TARGET_TOTAL cfg)) as [Hroom|Hfull];
    try discriminate; try (intros [= <- <- <-]; exact I).
  destruct (outer_pass cfg api csv c v) as [[next v1] evs1] eqn:Hpass.
  pose proof (outer_pass_asks_below _ _ _ _ _ Hpass Hroom) as Hasks.
  destruct (outer_pass_effect _ _ _ _ _ _ _ _ Hpass) as (S1 & _).
  destruct next as [next|]; [|intros [= <- <- <-]; exact Hasks].
  destruct (num_value next <=? 0).
  - intros [= <- <- <-]. apply asks_below_app. split; [exact Hasks|exact I].
  - destruct (while_loop cfg api csv fuel next v1) as [[[last2 v2] evs2]|] eqn:Hrest;
      [|discriminate].
    intros [= <- <- <-]. apply asks_below_app. split; [exact Hasks|].
    rewrite <- S1. apply (IH _ _ _ _ _ Hrest).
Qed.

Lemma outer_pass_requests (c : Num) (v v1 : Vars) (next : option Num)
      (evs : list Event) :
  outer_pass cfg api csv c v = (next, v1, evs) ->
  Forall (fits cfg (num_value c)) (requested evs)
  /\ (length (requested evs) <= Z.to_nat (PAGES_PER_QUERY cfg))%nat.
Proof.
  intros Hpass.
  destruct (pass_events_requests cfg api csv c v) as [k Hk].
  unfold pass_events in Hk. rewrite Hpass in Hk. simpl in Hk. rewrite Hk.
  split.
  - apply Forall_forall. intros rq Hin.
    apply list_elem_of_fmap in Hin as (pg & -> & Hpg).
    apply list_elem_of_lookup in Hpg as [i Hi].
    apply lookup_take_Some in Hi as [Hi _].
    apply range_lookup in Hi as [-> Hlt].
    unfold fits. simpl. lia.
  - rewrite length_fmap, length_take, range_length. lia.
Qed.

Lemma while_loop_requests (fuel : nat) (c : Num) (v v' : Vars)
      (ending : option Num) (evs : list Event) :
  while_loop cfg api csv fuel c v = Some (ending, v', evs) ->
  Forall (fits cfg (num_value c)) (requested evs)
  /\ (length (requested evs)
      <= enough_fuel (num_value c) * Z.to_nat (PAGES_PER_QUERY cfg))%nat.
Proof.
  revert c v v' ending evs.
  induction fuel as [|fuel IH]; intros c v v' ending evs; simpl;
    destruct (total_saved v <? TARGET_TOTAL cfg);
    try discriminate;
    try (intros [= <- <- <-]; split; [constructor|simpl; lia]).
  destruct (outer_pass cfg api csv c v) as [[next v1] evs1] eqn:Hpass.
  destruct (outer_pass_requests _ _ _ _ _ Hpass) as [Hfit1 Hlen1].
  destruct (outer_pass_effect _ _ _ _ _ _ _ _ Hpass) as (_ & _ & _ & Hnext & _).
  pose proof (enough_fuel_pos (num_value c)) as Hpos.
  destruct next as [next|].
  2:{ intros [= <- <- <-]. split; [exact Hfit1|nia]. }
  pose proof (advance_window_below _ _ _ (eq_sym Hnext)) as Hbelow.
  destruct (Z.leb_spec (num_value next) 0) as [Hend|Hmore].
  - intros [= <- <- <-]. rewrite requested_app. simpl. rewrite app_nil_r.
    split; [exact Hfit1|nia].
  - destruct (while_loop cfg api csv fuel next v1) as [[[last2 v2] evs2]|] eqn:Hrest;
      [|discriminate].
    intros [= <- <- <-]. destruct (IH _ _ _ _ _ Hrest) as [Hfit2 Hlen2].
    pose proof (enough_fuel_next (num_value c) (num_value next) Hbelow Hmore)
      as Hfuel.
    rewrite requested_app, length_app. split.
    + apply Forall_app. split; [exact Hfit1|].
      eapply Forall_impl; [exact Hfit2|].
      unfold fits. intros rq (? & ? & ?). repeat split; lia.
    + nia.
Qed.

Lemma while_loop_stops (fuel : nat) (c : Num) (v v' : Vars)
      (last_max : Num) (evs : list Event) :
  while_loop cfg api csv fuel c v = Some (Some last_max, v', evs) ->
  TARGET_TOTAL cfg <= total_saved v'
  \/ (num_value last_max <= 0 /\ last evs = Some (Print ReachedZero)).
Proof.
  revert c v v' last_max evs.
  induction fuel as [|fuel IH]; intros c v v' last_max evs; simpl;
    destruct (Z.ltb_spec (total_saved v) (TARGET_TOTAL cfg)) as [Hroom|Hfull];
    try discriminate; try (intros [= <- <- <-]; left; exact Hfull).
  destruct (outer_pass cfg api csv c v) as [[[next|] v1] evs1] eqn:Hpass;
    [|discriminate].
  destruct (Z.leb_spec (num_value next) 0) as [Hend|Hmore].
  - intros [= <- <- <-]. right. split; [exact Hend|apply last_snoc].
  - destruct (while_loop cfg api csv fuel next v1) as [[[last2 v2] evs2]|] eqn:Hrest;
      [|discriminate].
    intros [= -> <- <-].
    destruct (IH _ _ _ _ _ Hrest) as [Hfull|[Hend Hlast]]; [left; exact Hfull|].
    right. split; [exact Hend|].
    rewrite last_app, Hlast. reflexivity.
Qed.

End Runs.

(** X10: no request is sent once the target is reached: every request of
    a run is sent while fewer record rows than the target are written. *)
Theorem no_request_once_target_reached (cfg : Config) (api : Api)
        (csv : Writer) :
  exists ending v evs,
    fetch_repositories cfg api csv = Some (ending, v, evs)
    /\ forall pre rq post,
         evs = pre ++ Get rq :: post ->
         Z.of_nat (length (data_rows pre)) < TARGET_TOTAL cfg.
Proof.
  destruct (fetch_repositories_runs cfg api csv)
    as (ending & v & body & Hloop & Hrun).
  do 3 eexists. split; [exact Hrun|].
  pose proof (while_loop_asks_below _ _ _ _ _ _ _ _ _ Hloop) as Hasks.
  simpl in Hasks.
  intros pre rq post Hsplit.
  destruct pre as [|e1 [|e2 pre]]; try discriminate Hsplit.
  injection Hsplit as <- <- Hsplit.
  change (data_rows (WriteRow ?h :: ?b :: pre)) with (rows_of pre).
  assert (asks_below (TARGET_TOTAL cfg) 0 (body ++ closing ending v)) as Hall.
  { apply asks_below_app. split; [exact Hasks|].
    destruct ending; exact I. }
  rewrite Hsplit in Hall. apply asks_below_request in Hall. lia.
Qed.

(** X11: every request of a run asks for the configured page size, for a
    page between 1 and the configured number of pages, and for a ceiling
    that is at most the initial one; the run sends at most (initial ceiling,
    or 1 if that is larger) times (pages per window) requests. *)
Theorem run_requests_bounded (cfg : Config) (api : Api) (csv : Writer) :
  exists ending v evs,
    fetch_repositories cfg api csv = Some (ending, v, evs)
    /\ Forall (fun rq =>
                 per_page rq = RESULTS_PER_PAGE cfg
                 /\ 1 <= page rq <= PAGES_PER_QUERY cfg
                 /\ num_value (max_stars rq) <= initial_max_stars cfg)
              (requested evs)
    /\ Z.of_nat (length (requested evs))
       <= Z.max 1 (initial_max_stars cfg) * Z.max 0 (PAGES_PER_QUERY cfg).
Proof.
  destruct (fetch_repositories_runs cfg api csv)
    as (ending & v & body & Hloop & Hrun).
  do 3 eexists. split; [exact Hrun|].
  destruct (while_loop_requests _ _ _ _ _ _ _ _ _ Hloop) as [Hfit Hlen].
  rewrite run_requested. simpl in Hfit, Hlen.
  split; [exact Hfit|].
  unfold enough_fuel in Hlen. nia.
Qed.

(** X12: a run ends for one of three reasons: the target is reached, the
    ceiling has come down to 0 or below, or the window comparison raised
    the type error because the last record row written carries a star
    count that is not a number; when the run returns with a ceiling above 0
    (and the target is not negative), the record rows written are exactly
    the target. *)
Theorem run_ends_for_a_reason (cfg : Config) (api : Api) (csv : Writer) :
  exists ending v evs,
    fetch_repositories cfg api csv = Some (ending, v, evs)
    /\ match ending with
       | Some last_max =>
           TARGET_TOTAL cfg <= total_saved v \/ num_value last_max <= 0
       | None =>
           exists row s,
             last (data_rows evs) = Some row
             /\ star_value row = Some s /\ as_num s = None
       end
    /\ (forall last_max,
          ending = Some last_max ->
          0 < num_value last_max -> 0 <= TARGET_TOTAL cfg ->
          Z.of_nat (length (data_rows evs)) = TARGET_TOTAL cfg).
Proof.
  destruct (fetch_repositories_runs cfg api csv)
    as (ending & v & body & Hloop & Hrun).
  do 3 eexists. split; [exact Hrun|].
  destruct (while_loop_effect _ _ _ _ _ _ _ _ _ Hloop) as (Hsaved & Hquota & _).
  simpl in Hsaved, Hquota. rewrite run_data_rows.
  destruct ending as [last_max|].
  - destruct (while_loop_stops _ _ _ _ _ _ _ _ _ Hloop) as [Hfull|[Hend _]].
    + split; [left; exact Hfull|]. intros ? _ _ Htarget. lia.
    + split; [right; exact Hend|]. intros ? [= <-] Hpos _. lia.
  - split; [|discriminate].
    apply (while_loop_raises _ _ _ _ _ _ _ _ Hloop).
Qed.

(** ** Beyond the claims: an API that never lets a request through *)

Section AlwaysLimited.

Variable cfg : Config.
Variable api : Api.
Variable csv : Writer.
Hypothesis limited : forall n rq, exists body, api n rq = Http 403 body.

Lemma for_pages_all_limited (pages : list Z) (c : Num) (v v1 : Vars)
      (evs : list Event) :
  for_pages cfg api csv pages c v = (v1, evs) ->
  total_saved v1 = total_saved v
  /\ last_star_count v1 = last_star_count v
  /\ rows_of evs = []
  /\ searched evs = []
  /\ length (requested evs) = length pages.
Proof using limited.
  revert v v1 evs. induction pages as [|pg later IH]; intros v v1 evs.
  - intros [= <- <-]. repeat split.
  - destruct (limited (calls v) (request_for cfg c pg)) as [body Hapi].
    rewrite (for_pages_rate_limited _ _ _ _ _ _ _ _ Hapi).
    destruct (for_pages cfg api csv later c (after_call v)) as [v2 evs2] eqn:Hlater.
    intros [= <- <-].
    destruct (IH _ _ _ Hlater) as (Hsaved & Hlast & Hrows & Hsearched & Hlen).
    simpl in Hsaved, Hlast.
    change (rows_of (Get ?r :: Print ?m :: Sleep ?t :: evs2)) with (rows_of evs2).
    change (searched (Get ?r :: Print RateLimitHit :: Sleep ?t :: evs2))
      with (searched evs2).
    change (requested (Get ?r :: Print ?m :: Sleep ?t :: evs2))
      with (r :: requested evs2).
    cbn [length]. rewrite Hlen. repeat split; assumption.
Qed.

Lemma outer_pass_all_limited (c : Num) (v v1 : Vars) (next : option Num)
      (evs : list Event) :
  outer_pass cfg api csv c v = (next, v1, evs) ->
  next = Some (NInt (num_value c - 1))
  /\ total_saved v1 = total_saved v
  /\ rows_of evs = []
  /\ searched evs = [num_value c]
  /\ length (requested evs) = Z.to_nat (PAGES_PER_QUERY cfg).
Proof using limited.
  unfold outer_pass.
  destruct (for_pages cfg api csv _ c _) as [v2 evs2] eqn:Hpages.
  intros [= <- <- <-].
  destruct (for_pages_all_limited _ _ _ _ _ Hpages)
    as (Hsaved & Hlast & Hrows & Hsearched & Hlen).
  simpl in Hsaved, Hlast. rewrite range_length in Hlen.
  change (rows_of (Print ?m :: evs2)) with (rows_of evs2).
  change (requested (Print ?m :: evs2)) with (requested evs2).
  change (searched (Print (Searching c) :: evs2))
    with (num_value c :: searched evs2).
  rewrite Hlast, Hrows, Hsearched, Hlen. unfold advance_window.
  rewrite of_num_as_num, Z.leb_refl. repeat split; [assumption|f_equal; lia].
Qed.

Lemma while_loop_all_limited (fuel : nat) (c : Num) (v : Vars) :
  1 <= num_value c -> (Z.to_nat (num_value c) <= fuel)%nat ->
  total_saved v < TARGET_TOTAL cfg ->
  exists v' evs,
    while_loop cfg api csv fuel c v = Some (Some (NInt 0), v', evs)
    /\ rows_of evs = []
    /\ length (searched evs) = Z.to_nat (num_value c)
    /\ length (requested evs)
       = (Z.to_nat (num_value c) * Z.to_nat (PAGES_PER_QUERY cfg))%nat.
Proof using limited.
  revert c v. induction fuel as [|fuel IH]; intros c v Hc Hfuel Hroom; [lia|].
  simpl. destruct (Z.ltb_spec (total_saved v) (TARGET_TOTAL cfg)); [|lia].
  destruct (outer_pass cfg api csv c v) as [[next v1] evs1] eqn:Hpass.
  destruct (outer_pass_all_limited _ _ _ _ _ Hpass)
    as (-> & Hsaved & Hrows & Hsearched & Hlen).
  cbn [num_value].
  destruct (Z.leb_spec (num_value c - 1) 0) as [Hend|Hmore].
  - assert (num_value c = 1) as Hone by lia. rewrite Hone in *.
    exists v1, (evs1 ++ [Print ReachedZero]).
    rewrite rows_of_app, searched_app, requested_app, !length_app,
      Hrows, Hsearched, Hlen.
    repeat split; simpl; lia.
  - destruct (IH (NInt (num_value c - 1)) v1)
      as (v2 & evs2 & -> & Hrows2 & Hsearched2 & Hlen2);
      [simpl; lia|simpl; lia|lia|].
    simpl in Hsearched2, Hlen2.
    exists v2, (evs1 ++ evs2).
    rewrite rows_of_app, searched_app, requested_app, !length_app,
      Hrows, Hrows2, Hsearched, Hsearched2, Hlen, Hlen2.
    repeat split; simpl; nia.
Qed.

End AlwaysLimited.

(** X13: when every request is turned down with 403 the run does not
    stall: each pass tries its pages once, sleeping after each, and moves
    the ceiling down by 1, so the run ends at ceiling 0 with no record row
    written, after (initial ceiling) passes and (initial ceiling) times
    (pages per window) requests. *)
Theorem always_limited_run_ends_empty (cfg : Config) (api : Api)
        (csv : Writer) :
  (forall n rq, exists body, api n rq = Http 403 body) ->
  1 <= initial_max_stars cfg ->
  0 < TARGET_TOTAL cfg ->
  exists v evs,
    fetch_repositories cfg api csv = Some (Some (NInt 0), v, evs)
    /\ data_rows evs = []
    /\ Z.of_nat (length (searched evs)) = initial_max_stars cfg
    /\ Z.of_nat (length (requested evs))
       = initial_max_stars cfg * Z.max 0 (PAGES_PER_QUERY cfg).
Proof.
  intros Hlimited Hceiling Htarget.
  destruct (while_loop_all_limited cfg api csv Hlimited
              (enough_fuel (initial_max_stars cfg))
              (NInt (initial_max_stars cfg)) (start cfg))
    as (v & body & Hloop & Hrows & Hsearched & Hlen);
    [exact Hceiling|unfold enough_fuel; simpl; lia|exact Htarget|].
  simpl in Hsearched, Hlen.
  unfold fetch_repositories, fetch_repositories_with.
  rewrite Hloop. do 2 eexists. split; [reflexivity|].
  rewrite run_data_rows, run_searched, run_requested, Hrows, Hsearched, Hlen.
  repeat split; nia.
Qed.

Lemma always_limited_run_ends_empty_witness :
  exists v evs,
    fetch_repositories default_config always_limited_api always_writes
    = Some (Some (NInt 0), v, evs)
    /\ data_rows evs = []
    /\ Z.of_nat (length (searched evs)) = initial_max_stars default_config
    /\ Z.of_nat (length (requested evs))
       = initial_max_stars default_config
         * Z.max 0 (PAGES_PER_QUERY default_config).
Proof.
  apply (always_limited_run_ends_empty default_config always_limited_api
                                       always_writes).
  - intros n rq. exists Unparsable. reflexivity.
  - simpl. lia.
  - simpl. lia.
Defined.

(** ** Beyond the claims: the window and the license cell *)

(** X14: whatever the order of the records, the ceiling after a pass
    counts as the smaller of the star count of the last row written in the
    pass and the ceiling minus 1; with no row written it is the ceiling
    minus 1; there is no ceiling, the comparison raising, exactly when that
    star count is not a number. *)
Theorem next_ceiling_from_last_row (cfg : Config) (api : Api) (csv : Writer)
        (c : Num) (v : Vars) :
  num_value <$> next_ceiling cfg api csv c v =
  (fun l => Z.min (num_value l) (num_value c - 1))
    <$> as_num (default (of_num c)
                        (last (stars_seen (pass_events cfg api csv c v)))).
Proof.
  unfold next_ceiling, pass_events.
  destruct (outer_pass cfg api csv c v) as [[next v1] evs] eqn:Hpass. simpl.
  destruct (outer_pass_effect _ _ _ _ _ _ _ _ Hpass)
    as (_ & _ & Hlast & Hnext & _).
  rewrite Hnext, Hlast. unfold advance_window, tracked.
  destruct (as_num (default (of_num c) (last (stars_seen evs)))) as [l|];
    [|reflexivity].
  destruct (Z.leb_spec (num_value c) (num_value l)); simpl; f_equal; lia.
Qed.

(** X15: in a written row the license cell of an item whose license is an
    object is the value of its name key, null included, or N/A when the
    object has no name key; the license cell of an item whose license is
    any other value is N/A. *)
Theorem license_cell_by_case (repo : Repo) (row : list Scalar) :
  make_row repo = Some row ->
  (forall d, license repo = Some (JObj d) ->
             row !! 9%nat = Some (default (JStr "N/A") (d !! "name")))
  /\ (forall value, license repo = Some (JVal value) ->
                    row !! 9%nat = Some (JStr "N/A")).
Proof.
  intros (lic & Hlic & ->)%make_row_shape. simpl. split.
  - intros d Hd. rewrite Hd in Hlic. simpl in Hlic. congruence.
  - intros value Hvalue. rewrite Hvalue in Hlic. unfold license_name in Hlic.
    destruct (truthy value); [discriminate|].
    rewrite lookup_empty in Hlic. simpl in Hlic. congruence.
Qed.

Lemma license_cell_by_case_witness :
  (forall d,
      license {| name := None; full_name := None; html_url := None;
                 description := None; stargazers_count := None;
                 forks_count := None; open_issues_count := None;
                 created_at := None; updated_at := None;
                 license := Some (JObj {[ "name" := JNull ]}) |}
      = Some (JObj d) ->
      [ JNull; JNull; JNull; JStr EmptyString; JInt 0; JNull; JNull; JNull;
        JNull; JNull ] !! 9%nat = Some (default (JStr "N/A") (d !! "name")))
  /\ (forall value,
        license {| name := None; full_name := None; html_url := None;
                   description := None; stargazers_count := None;
                   forks_count := None; open_issues_count := None;
                   created_at := None; updated_at := None;
                   license := Some (JObj {[ "name" := JNull ]}) |}
        = Some (JVal value) ->
        [ JNull; JNull; JNull; JStr EmptyString; JInt 0; JNull; JNull; JNull;
          JNull; JNull ] !! 9%nat = Some (JStr "N/A")).
Proof.
  apply (license_cell_by_case
           {| name := None; full_name := None; html_url := None;
              description := None; stargazers_count := None;
              forks_count := None; open_issues_count := None;
              created_at := None; updated_at := None;
              license := Some (JObj {[ "name" := JNull ]}) |}).
  vm_compute. reflexivity.
Defined.
